(** * Forum bot automation: outline converter and posting scheduler

    A shallow embedding of [convert_schedule.py] (the outline parser) and of
    the two dispatch loops of [main.py] ([run_schedule], [run_watch]),
    together with the properties of the specification that concern them.
    The API client of [forum_provider.py] and the setup of [main.py]
    ([init_forum]) follow, with properties of their own.

    Conventions of the embedding.
    - A Python [str] is a [string]; every character is a code point below
      256, so [\s], [\d] and [str.strip] are the Python classes restricted
      to that range.
    - A Python [dict] with string keys is a [gmap string _]; the set of
      executed post keys is a [gset string].  A row of [csv.DictReader] is
      such a dictionary: a column that the file lacks is absent from it
      (rows shorter than the header, whose fields would be [None], are
      outside the model).
    - A date is the proleptic Gregorian ordinal of the day; its rendering
      as YYYY-MM-DD is not modelled, the loops of [main.py] compare dates
      as the strings they read.
    - The Publisher ([ForumProvider.submit_thread], [submit_reply]) is an
      oracle: a function of the calls made so far and of the present call.
      A call returns a response or raises [ForumProviderError].
    - An exception that no handler of a loop catches ends the loop; the
      state reached so far is kept for inspection.
    - Logging, sleeping and the posted log file have no effect on what is
      stated here and are left out. *)

From Stdlib Require Import ZArith Ascii String List Permutation.
From stdpp Require Import base option list gmap strings pretty.

Local Open Scope string_scope.

(** ** Python strings *)

Module Py.

(** [Py_UNICODE_ISSPACE] on code points below 256: the ASCII white space,
    the separators 0x1c-0x1f, NEL (0x85) and the no-break space (0xa0). *)
Definition isspace (c : ascii) : bool :=
  let n := nat_of_ascii c in
  (((9 <=? n) && (n <=? 13)) || ((28 <=? n) && (n <=? 32))
   || (n =? 133) || (n =? 160))%nat.

(** The decimal digits below 256 are the ASCII ones. *)
Definition isdigit (c : ascii) : bool :=
  let n := nat_of_ascii c in ((48 <=? n) && (n <=? 57))%nat.

Definition tab : ascii := "009"%char.
Definition newline : ascii := "010"%char.

Fixpoint lstrip (s : string) : string :=
  match s with
  | String c s' => if isspace c then lstrip s' else s
  | EmptyString => EmptyString
  end.

(** [rstrip]: a character is kept when it is not white space or when
    something is kept after it. *)
Fixpoint rstrip (s : string) : string :=
  match s with
  | String c s' =>
      match rstrip s' with
      | EmptyString => if isspace c then EmptyString else String c EmptyString
      | t => String c t
      end
  | EmptyString => EmptyString
  end.

(** [s.strip()] *)
Definition strip (s : string) : string := rstrip (lstrip s).

(** [s.split(sep)] for a one-character separator: never the empty list. *)
Fixpoint split (sep : ascii) (s : string) : list string :=
  match s with
  | EmptyString => [EmptyString]
  | String c s' =>
      if Ascii.eqb c sep then EmptyString :: split sep s'
      else match split sep s' with
           | w :: ws => String c w :: ws
           | [] => [String c EmptyString]
           end
  end.

(** [sep.join(parts)] *)
Fixpoint join (sep : string) (parts : list string) : string :=
  match parts with
  | [] => EmptyString
  | [w] => w
  | w :: ws => w ++ sep ++ join sep ws
  end.

(** [s.startswith(p)] *)
Fixpoint startswith (p s : string) : bool :=
  match p, s with
  | EmptyString, _ => true
  | String a p', String b s' => Ascii.eqb a b && startswith p' s'
  | String _ _, EmptyString => false
  end.

(** [p in s] *)
Fixpoint contains (p s : string) : bool :=
  startswith p s ||
  match s with
  | String _ s' => contains p s'
  | EmptyString => false
  end.

(** [re.sub(lit, '', s)] for a literal, non-empty pattern: occurrences are
    removed left to right without overlap.  [skip] counts the characters of
    the occurrence under removal that are still to be dropped. *)
Fixpoint remove_from (lit : string) (skip : nat) (s : string) : string :=
  match s with
  | EmptyString => EmptyString
  | String c s' =>
      match skip with
      | S k => remove_from lit k s'
      | O => if startswith lit s
             then remove_from lit (String.length lit - 1) s'
             else String c (remove_from lit 0 s')
      end
  end.

Definition remove_all (lit s : string) : string := remove_from lit 0 s.

(** The value of a run of decimal digits. *)
Definition int_of_digits (s : string) : Z :=
  fold_left (fun acc c => 10 * acc + Z.of_nat (nat_of_ascii c - 48))%Z
            (list_ascii_of_string s) 0%Z.

(** [int(s)] on a run of decimal digits: CPython 3.11 (and the earlier
    releases that carry [sys.int_max_str_digits]) raises [ValueError] on
    more than 4300 digits, leading zeros counted; [None] is that
    exception. *)
Definition int_max_str_digits : N := 4300.

Definition int (s : string) : option Z :=
  if (int_max_str_digits <? N.of_nat (String.length s))%N then None
  else Some (int_of_digits s).

(** [f"{n:02d}"] for a non-negative [n]. *)
Definition fmt02 (n : nat) : string :=
  if (n <? 10)%nat then "0" ++ pretty n else pretty n.

(** Python truthiness of a string. *)
Definition truthy (s : string) : bool :=
  match s with EmptyString => false | _ => true end.

End Py.

(** ** Backtracking regular expressions

    The patterns of the program are matched as Python's [re.match] matches
    them: anchored at the start, greedy and lazy quantifiers tried in the
    engine's order, the first success wins.  Only the constructs that the
    program's patterns use are present. *)

Module Re.

Inductive re : Type :=
| Chr (p : ascii -> bool)      (* one character of a class *)
| Seq (r1 r2 : re)
| Opt (r : re)                 (* r?  greedy *)
| Star (r : re)                (* r*  greedy *)
| LazyStar (r : re)            (* r*? lazy *)
| Group (i : nat) (r : re)     (* capturing group number i *)
| Eos.                         (* $ *)

Definition groups : Type := gmap nat string.

(** The text consumed between the suffix [s] and its suffix [s']. *)
Definition consumed (s s' : string) : string :=
  substring 0 (String.length s - String.length s') s.

Section Engine.
Context {A : Type}.

(** [run r s g k]: match [r] at the head of [s] with captures [g], then
    continue with [k] on what is left; [None] is failure and makes the
    enclosing quantifier try its next choice. *)
Fixpoint run (r : re) (s : string) (g : groups)
         (k : string -> groups -> option A) {struct r} : option A :=
  match r with
  | Chr p =>
      match s with
      | String c s' => if p c then k s' g else None
      | EmptyString => None
      end
  | Seq r1 r2 => run r1 s g (fun s' g' => run r2 s' g' k)
  | Opt r1 =>
      match run r1 s g k with
      | Some x => Some x
      | None => k s g
      end
  | Star r1 =>
      (fix loop (n : nat) (s : string) (g : groups) {struct n} : option A :=
         match n with
         | O => k s g
         | S n' =>
             match run r1 s g (fun s' g' =>
                     if (String.length s' <? String.length s)%nat
                     then loop n' s' g' else None) with
             | Some x => Some x
             | None => k s g
             end
         end) (String.length s) s g
  | LazyStar r1 =>
      (fix loop (n : nat) (s : string) (g : groups) {struct n} : option A :=
         match k s g with
         | Some x => Some x
         | None =>
             match n with
             | O => None
             | S n' =>
                 run r1 s g (fun s' g' =>
                   if (String.length s' <? String.length s)%nat
                   then loop n' s' g' else None)
             end
         end) (String.length s) s g
  | Group i r1 => run r1 s g (fun s' g' => k s' (<[i := consumed s s']> g'))
  | Eos =>
      match s with
      | EmptyString => k s g
      | String c EmptyString => if Ascii.eqb c Py.newline then k s g else None
      | _ => None
      end
  end.
End Engine.

(** [re.match(r, s)]: the captures of the first successful match. *)
Definition rmatch (r : re) (s : string) : option groups :=
  run r s ∅ (fun _ g => Some g).

Definition Plus (r : re) : re := Seq r (Star r).
Definition LazyPlus (r : re) : re := Seq r (LazyStar r).
Definition Lit (c : ascii) : re := Chr (Ascii.eqb c).
(** a letter under [re.IGNORECASE] *)
Definition LitI (lo up : ascii) : re :=
  Chr (fun c => Ascii.eqb c lo || Ascii.eqb c up).
Definition digit : re := Chr Py.isdigit.
Definition space : re := Chr Py.isspace.
(** [.] : anything but a newline *)
Definition dot : re := Chr (fun c => negb (Ascii.eqb c Py.newline)).
(** [r] followed by the patterns [rs], in this order *)
Fixpoint seqs (r : re) (rs : list re) : re :=
  match rs with
  | [] => r
  | r' :: rs' => Seq r (seqs r' rs')
  end.

(** [\d+(?:\.\d+){0,}], that is digits, then any number of dot-digits *)
Definition hier_id : re := Seq (Plus digit) (Star (Seq (Lit ".") (Plus digit))).

End Re.

(** ** convert_schedule.py: the outline parser *)

Module Convert.
Import Re.

(** One row dictionary of [rows]; [datetime] holds the proleptic Gregorian
    ordinal of [current_date] (its [strftime] rendering is not modelled). *)
Record Row : Type := mkRow {
  datetime : Z;
  time : string;
  account : string;
  title : string;
  body : string;
  kind : string;
  reply_to : string;
  community : string;
  row_id : string
}.

(** The loop variables of [parse_schedule_text]. *)
Record pstate : Type := mkPState {
  current_day : Z;
  current_date : Z;
  current_title : string;
  minute_offset : nat
}.

Inductive error : Type :=
| DayOutOfRange   (* the exception of a day number that is too large:
                     the ValueError of int() beyond 4300 digits, the
                     overflow error of timedelta(days=..) or of the date
                     addition *)
| OutOfFuel.      (* the bound of the model's loop was too small *)

Inductive res (A : Type) : Type :=
| Ok (a : A)
| Err (e : error).
Arguments Ok {A} a.
Arguments Err {A} e.

(** The patterns are quoted with the repetition star written [{0,}].

    [r'^Day\s+(\d+):\s{0,}(.+)$'] with [re.IGNORECASE] *)
Definition day_re : re :=
  seqs (LitI "d" "D")
       [LitI "a" "A"; LitI "y" "Y"; Plus space;
        Group 1 (Plus digit); Lit ":"; Star space; Group 2 (Plus dot); Eos].

(** [r'^(\d+(?:\.\d+){0,})?\.?\t(.+?)\t(.{0,})$'] *)
Definition row_re : re :=
  seqs (Opt (Group 1 hier_id))
       [Opt (Lit "."); Lit Py.tab;
        Group 2 (LazyPlus dot); Lit Py.tab; Group 3 (Star dot); Eos].

(** [r'^(\d+(?:\.\d+){0,})\.?\s+(.+?)\s{2,}(.{0,})$'] *)
Definition alt_row_re : re :=
  seqs (Group 1 hier_id)
       [Opt (Lit "."); Plus space;
        Group 2 (LazyPlus dot); space; space; Star space;
        Group 3 (Star dot); Eos].

(** The three patterns of the look-ahead:
    [r'^\d+(?:\.\d+){0,}\.?\t'], [r'^Day\s+\d+:'] (ignoring case),
    [r'^ID\t']. *)
Definition next_row_re : re := seqs hier_id [Opt (Lit "."); Lit Py.tab].
Definition next_day_re : re :=
  seqs (LitI "d" "D")
       [LitI "a" "A"; LitI "y" "Y"; Plus space; Plus digit; Lit ":"].
Definition next_header_re : re := seqs (Lit "I") [Lit "D"; Lit Py.tab].

Definition matches (r : re) (s : string) : bool :=
  match rmatch r s with Some _ => true | None => false end.

(** [m.group(i)] of a group that took part in the match, [""] otherwise
    (the callers below only read groups that always take part, or guard
    the read with [or "0"]). *)
Definition group (g : groups) (i : nat) : string := default "" (g !! i).

(** The condition under which the inner [while] breaks. *)
Definition stops_body (next_line : string) : bool :=
  matches next_row_re next_line
  || matches next_day_re next_line
  || matches next_header_re next_line
  || negb (Py.truthy (Py.strip next_line)).

(** The inner [while j < len(lines)]: extends [content] with the lines
    that follow and returns it with the lines from index [j] on. *)
Fixpoint collect_body (content : string) (rest : list string)
  : string * list string :=
  match rest with
  | [] => (content, [])
  | next_line :: rest' =>
      if stops_body next_line then (content, rest)
      else collect_body (content ++ " " ++ Py.strip next_line) rest'
  end.

Definition base_time : nat := 10.

(** [time_str] as computed from [minute_offset]. *)
Definition time_str (minute_offset : nat) : string :=
  let hour := (base_time + minute_offset / 60)%nat in
  let minute := (minute_offset mod 60)%nat in
  Py.fmt02 hour ++ ":" ++ Py.fmt02 minute.

(** "Determine kind and reply_to". *)
Definition kind_and_reply_to (row_id : string) : string * string :=
  if String.eqb row_id "0" then ("self", "")
  else
    let parts := Py.split "." row_id in
    if (length parts =? 1)%nat then ("comment", "0")
    else ("comment", Py.join "." (removelast parts)).

Definition placeholder : string := "/LLM generated sentence/".

(** "Clean up content". *)
Definition clean_content (content : string) : string :=
  Py.strip (Py.remove_all placeholder (Py.strip content)).

(** [start + timedelta(days=d)] on ordinals: [timedelta] takes at most
    999999999 days and [datetime.max] is day 3652059. *)
Definition add_days (start d : Z) : res Z :=
  if ((-999999999 <=? d) && (d <=? 999999999))%Z then
    let o := (start + d)%Z in
    if ((1 <=? o) && (o <=? 3652059))%Z then Ok o else Err DayOutOfRange
  else Err DayOutOfRange.

(** Which branch one iteration of the outer [while] took. *)
Inductive effect : Type :=
| Blank
| DayHeader
| TableHeader
| Unparsed
| RowLine (r : Row) (appended : bool).

(** One iteration of the outer [while] on [lines[i]] = [l], with [rest] the
    lines after it: the new loop variables, the branch taken and the lines
    from the new index [i] on. *)
Definition iteration (start : Z) (community_slug : string)
           (st : pstate) (l : string) (rest : list string)
  : res (pstate * effect * list string) :=
  let line := Py.strip l in
  if negb (Py.truthy line) then Ok (st, Blank, rest)
  else
  match rmatch day_re line with
  | Some m =>
      match Py.int (group m 1) with
      | None => Err DayOutOfRange
      | Some day =>
          match add_days start (day - 1) with
          | Ok d =>
              Ok (mkPState day d (Py.strip (group m 2)) 0, DayHeader, rest)
          | Err e => Err e
          end
      end
  | None =>
  if Py.startswith "ID" line && Py.contains "Bot" line
  then Ok (st, TableHeader, rest)
  else
  let row_match :=
    match rmatch row_re line with
    | Some m => Some m
    | None => rmatch alt_row_re line
    end in
  match row_match with
  | None => Ok (st, Unparsed, rest)
  | Some m =>
      let row_id := if Py.truthy (group m 1) then group m 1 else "0" in
      let account := Py.strip (group m 2) in
      let content := Py.strip (group m 3) in
      let '(content, rest') := collect_body content rest in
      let time_str := time_str (minute_offset st) in
      let st' := mkPState (current_day st) (current_date st)
                          (current_title st) (minute_offset st + 5) in
      let '(kind, reply_to) := kind_and_reply_to row_id in
      let content := clean_content content in
      let row := mkRow (current_date st) time_str account
                       (if String.eqb kind "self" then current_title st else "")
                       content kind reply_to community_slug row_id in
      if negb (Py.truthy content) && negb (String.eqb kind "self")
      then Ok (st', RowLine row false, rest')
      else Ok (st', RowLine row true, rest')
  end
  end.

(** [rows.append(..)] happens in one branch only. *)
Definition append_effect (rows : list Row) (e : effect) : list Row :=
  match e with
  | RowLine r true => rows ++ [r]
  | _ => rows
  end.

(** The outer [while i < len(lines)], bounded by [fuel]. *)
Fixpoint parse_loop (fuel : nat) (start : Z) (community_slug : string)
         (st : pstate) (lines : list string) (rows : list Row)
  : res (list Row) :=
  match lines with
  | [] => Ok rows
  | l :: rest =>
      match fuel with
      | O => Err OutOfFuel
      | S fuel' =>
          match iteration start community_slug st l rest with
          | Ok (st', e, rest') =>
              parse_loop fuel' start community_slug st' rest'
                         (append_effect rows e)
          | Err e => Err e
          end
      end
  end.

(** [parse_schedule_text(text_content, start_date, community_slug)];
    [start] is the ordinal of [strptime(start_date, "%Y-%m-%d")]. *)
Definition parse_schedule_text (text_content : string) (start : Z)
           (community_slug : string) : res (list Row) :=
  let lines := Py.split Py.newline (Py.strip text_content) in
  parse_loop (length lines) start community_slug
             (mkPState 0 start "" 0) lines [].

(** The same loop, recording the branch of every iteration. *)
Fixpoint trace_loop (fuel : nat) (start : Z) (community_slug : string)
         (st : pstate) (lines : list string) : res (list effect) :=
  match lines with
  | [] => Ok []
  | l :: rest =>
      match fuel with
      | O => Err OutOfFuel
      | S fuel' =>
          match iteration start community_slug st l rest with
          | Ok (st', e, rest') =>
              match trace_loop fuel' start community_slug st' rest' with
              | Ok es => Ok (e :: es)
              | Err x => Err x
              end
          | Err x => Err x
          end
      end
  end.

Definition parse_trace (text_content : string) (start : Z)
           (community_slug : string) : res (list effect) :=
  let lines := Py.split Py.newline (Py.strip text_content) in
  trace_loop (length lines) start community_slug
             (mkPState 0 start "" 0) lines.

End Convert.


(** ** main.py: the dispatch loops *)

Module Main.

(** A row of [csv.DictReader], [row.get(k, d)] and the ubiquitous
    [row.get(k, d).strip()]. *)
Definition get (row : gmap string string) (k d : string) : string :=
  default d (row !! k).
Definition field (row : gmap string string) (k d : string) : string :=
  Py.strip (get row k d).

(** What [load_state()] returns, as far as the loops read it; [bots] keeps
    the order of the JSON object, which [run_watch] iterates. *)
Record ForumState : Type := mkForumState {
  account_mapping : gmap string string;
  bot_tokens : gmap string string;
  bots : list (string * gmap string string)
}.

(** The two Publisher calls with their keyword arguments. *)
Inductive call : Type :=
| submit_thread (bot_id : string) (subcommunity_slug : option string)
                (title content : string)
| submit_reply (bot_id thread_id content : string)
               (parent_post_id : option string).

(** A call returns the decoded response or raises [ForumProviderError]. *)
Inductive response : Type :=
| Returned (result : gmap string string)
| ForumProviderError.

(** The Publisher: its answer may depend on every call made before. *)
Definition provider_t : Type := list call -> call -> response.

(** How a loop body ends: normally, or with an exception that no handler
    of the loop catches (the [KeyError] of [result["threadId"]] or
    [result["postId"]] on a response without that key). *)
Inductive status : Type :=
| Continue
| Raised.

(** [d.get(k)] followed by a truth test: a missing or empty value. *)
Definition falsy (o : option string) : bool :=
  match o with
  | Some s => negb (Py.truthy s)
  | None => true
  end.

(** [reply_to.split(".")[0]] *)
Definition thread_ref_of (reply_to : string) : string :=
  match Py.split "." reply_to with
  | w :: _ => w
  | [] => ""
  end.

(** [post_refs.get(reply_to) if "." in reply_to else None] *)
Definition parent_of (post_refs : gmap string string) (reply_to : string)
  : option string :=
  if Py.contains "." reply_to then post_refs !! reply_to else None.

(** *** Watch mode *)

(** The variables that live across iterations of [run_watch], and the
    list of Publisher calls made so far, each with the [post_key] of the
    record it was made for. *)
Record wstate : Type := mkW {
  executed_posts : gset string;
  post_refs : gmap string string;
  calls : list (string * call)
}.

Definition due : Type := (nat * gmap string string * string).

(** [f"{idx}:{row_date}:{row_time}"] *)
Definition post_key (idx : nat) (row_date row_time : string) : string :=
  pretty idx ++ ":" ++ row_date ++ ":" ++ row_time.

(** "Find posts due now": the rows from index [idx] on. *)
Fixpoint due_from (idx : nat) (rows : list (gmap string string))
         (current_date current_time : string) (executed : gset string)
  : list due :=
  match rows with
  | [] => []
  | row :: rows' =>
      let row_date := field row "datetime" "" in
      let row_time := field row "time" "" in
      let key := post_key idx row_date row_time in
      let tl := due_from (S idx) rows' current_date current_time executed in
      if String.eqb row_date current_date && String.eqb row_time current_time
         && negb (bool_decide (key ∈ executed))
      then (idx, row, key) :: tl else tl
  end.

Definition due_posts := due_from 0.

(** "Get community slug from bot if not specified" in [run_watch]: the
    first bot with this id decides, also when it has no slug. *)
Fixpoint slug_of_bot (bots : list (string * gmap string string))
         (bot_id : string) (community_slug : string) : option string :=
  match bots with
  | [] => Some community_slug
  | (_, bot_info) :: bots' =>
      if bool_decide (bot_info !! "id" = Some bot_id)
      then bot_info !! "community_slug"
      else slug_of_bot bots' bot_id community_slug
  end.

Definition mark (key : string) (st : wstate) : wstate :=
  mkW ({[key]} ∪ executed_posts st) (post_refs st) (calls st).

Definition record_call (key : string) (c : call) (st : wstate) : wstate :=
  mkW (executed_posts st) (post_refs st) (calls st ++ [(key, c)]).

Definition store_ref (k v : string) (st : wstate) : wstate :=
  mkW (executed_posts st) (<[k := v]> (post_refs st)) (calls st).

Section Watch.
Variable state : ForumState.
Variable provider : provider_t.

Definition ask (st : wstate) (c : call) : response :=
  provider (snd <$> calls st) c.

(** The body of [for idx, row, post_key in due_posts]. *)
Definition process_due (d : due) (st : wstate) : wstate * status :=
  let '(idx, row, key) := d in
  let account_name := field row "account" "" in
  let title := field row "title" "" in
  let body := field row "body" "" in
  let kind := field row "kind" "self" in
  let reply_to := field row "reply_to" "" in
  let community_slug := field row "community" "" in
  match account_mapping state !! account_name with
  | None => (mark key st, Continue)
  | Some bot_id =>
  if negb (Py.truthy bot_id) then (mark key st, Continue) else
  if falsy (bot_tokens state !! bot_id) then (mark key st, Continue) else
  let community_slug :=
    if Py.truthy community_slug then Some community_slug
    else slug_of_bot (bots state) bot_id community_slug in
  if String.eqb kind "self" then
    let c := submit_thread bot_id community_slug title body in
    match ask st c with
    | ForumProviderError => (mark key (record_call key c st), Continue)
    | Returned result =>
        let st := record_call key c st in
        match result !! "threadId" with
        | None => (st, Raised)
        | Some thread_id =>
            let st := store_ref (pretty idx) thread_id st in
            match result !! "postId" with
            | None => (st, Raised)
            | Some _ => (mark key st, Continue)
            end
        end
    end
  else if String.eqb kind "comment" then
    let thread_ref := thread_ref_of reply_to in
    let thread_id := post_refs st !! thread_ref in
    let parent_id := parent_of (post_refs st) reply_to in
    if falsy thread_id then (mark key st, Continue) else
    let c := submit_reply bot_id (default "" thread_id) body parent_id in
    match ask st c with
    | ForumProviderError => (mark key (record_call key c st), Continue)
    | Returned result =>
        let st := record_call key c st in
        match result !! "postId" with
        | None => (st, Raised)
        | Some post_id => (mark key (store_ref reply_to post_id st), Continue)
        end
    end
  else (mark key st, Continue)
  end.

(** The [for] loop over the shuffled batch. *)
Fixpoint process_batch (ds : list due) (st : wstate) : wstate * status :=
  match ds with
  | [] => (st, Continue)
  | d :: ds' =>
      match process_due d st with
      | (st', Continue) => process_batch ds' st'
      | (st', Raised) => (st', Raised)
      end
  end.

(** What one iteration of [while True] observes: the clock, the schedule
    file as it is at that moment, and the outcome of [random.shuffle]. *)
Record tick : Type := mkTick {
  current_date : string;
  current_time : string;
  rows : list (gmap string string);
  shuffle : list due -> list due
}.

(** One iteration of [while True]. *)
Definition run_tick (t : tick) (st : wstate) : wstate * status :=
  let due_posts :=
    due_posts (rows t) (current_date t) (current_time t) (executed_posts st) in
  match due_posts with
  | [] => (st, Continue)
  | _ => process_batch (shuffle t due_posts) st
  end.

(** The iterations of [while True] for the ticks that the process lives
    through. *)
Fixpoint run_ticks (ts : list tick) (st : wstate) : wstate * status :=
  match ts with
  | [] => (st, Continue)
  | t :: ts' =>
      match run_tick t st with
      | (st', Continue) => run_ticks ts' st'
      | (st', Raised) => (st', Raised)
      end
  end.

Definition initial : wstate := mkW ∅ ∅ [].

(** [run_watch] up to the end of the iterations for [ts]: nothing happens
    without bots.  The interrupt that stops the loop is not modelled; it
    can fall inside an iteration. *)
Definition run_watch (ts : list tick) : wstate * status :=
  match bots state with
  | [] => (initial, Continue)
  | _ => run_ticks ts initial
  end.
End Watch.

(** *** Single-pass mode *)

(** The variables of [run_schedule]: the reply index and the calls made. *)
Record sstate : Type := mkS {
  s_post_refs : gmap string string;
  s_calls : list call
}.

Section Schedule.
Variable state : ForumState.
Variable provider : provider_t.
Variable today : string.

(** The body of [for row in reader]. *)
Definition process_row (row : gmap string string) (st : sstate)
  : sstate * status :=
  if negb (bool_decide (row !! "datetime" = Some today)) then (st, Continue)
  else
  let account_name := field row "account" "" in
  let title := field row "title" "" in
  let body := field row "body" "" in
  let kind := field row "kind" "self" in
  let reply_to := field row "reply_to" "" in
  let community_slug := field row "community" "" in
  match account_mapping state !! account_name with
  | None => (st, Continue)
  | Some bot_id =>
  if negb (Py.truthy bot_id) then (st, Continue) else
  if falsy (bot_tokens state !! bot_id) then (st, Continue) else
  let community_slug :=
    if Py.truthy community_slug then Some community_slug
    else match (list_to_map (bots state) : gmap string (gmap string string))
                 !! "community_0_bot_0" with
         | Some bot_info =>
             if bool_decide (bot_info = ∅) then Some community_slug
             else bot_info !! "community_slug"
         | None => Some community_slug
         end in
  if String.eqb kind "self" then
    let c := submit_thread bot_id community_slug title body in
    match provider (s_calls st) c with
    | ForumProviderError => (mkS (s_post_refs st) (s_calls st ++ [c]), Continue)
    | Returned result =>
        match result !! "threadId" with
        | None => (mkS (s_post_refs st) (s_calls st ++ [c]), Raised)
        | Some thread_id =>
            let ref_key := pretty (size (s_post_refs st)) in
            let st := mkS (<[ref_key := thread_id]> (s_post_refs st))
                          (s_calls st ++ [c]) in
            match result !! "postId" with
            | None => (st, Raised)
            | Some _ => (st, Continue)
            end
        end
    end
  else if String.eqb kind "comment" then
    let thread_id := s_post_refs st !! thread_ref_of reply_to in
    let parent_id := parent_of (s_post_refs st) reply_to in
    if falsy thread_id then (st, Continue) else
    let c := submit_reply bot_id (default "" thread_id) body parent_id in
    match provider (s_calls st) c with
    | ForumProviderError => (mkS (s_post_refs st) (s_calls st ++ [c]), Continue)
    | Returned result =>
        match result !! "postId" with
        | None => (mkS (s_post_refs st) (s_calls st ++ [c]), Raised)
        | Some post_id =>
            (mkS (<[reply_to := post_id]> (s_post_refs st))
                 (s_calls st ++ [c]), Continue)
        end
    end
  else (st, Continue)
  end.

Fixpoint process_rows (rows : list (gmap string string)) (st : sstate)
  : sstate * status :=
  match rows with
  | [] => (st, Continue)
  | row :: rows' =>
      match process_row row st with
      | (st', Continue) => process_rows rows' st'
      | (st', Raised) => (st', Raised)
      end
  end.

(** [run_schedule] on the rows of the schedule file. *)
Definition run_schedule (rows : list (gmap string string))
  : sstate * status :=
  match bots state with
  | [] => (mkS ∅ [], Continue)
  | _ => process_rows rows (mkS ∅ [])
  end.
End Schedule.

End Main.

(** ** Vocabulary of the statements about the parser *)

Module ConvertSpec.
Import Convert.

(** The rows that the loop appended, read off the branches it took. *)
Fixpoint kept (es : list effect) : list Row :=
  match es with
  | [] => []
  | RowLine r true :: es' => r :: kept es'
  | _ :: es' => kept es'
  end.

(** Every recognized content row, appended or not. *)
Fixpoint recognized (es : list effect) : list Row :=
  match es with
  | [] => []
  | RowLine r _ :: es' => r :: recognized es'
  | _ :: es' => recognized es'
  end.

(** The number of content rows recognized since the last day header,
    starting the count at [p]. *)
Definition position_from (p : nat) (es : list effect) : nat :=
  fold_left (fun p e => match e with
                        | DayHeader => 0
                        | RowLine _ _ => S p
                        | _ => p
                        end) es p.

Definition position (es : list effect) : nat := position_from 0 es.

Definition is_day_header (e : effect) : bool :=
  match e with DayHeader => true | _ => false end.

Definition no_day_header (es : list effect) : bool :=
  forallb (fun e => negb (is_day_header e)) es.

(** What the row branch of [iteration] guarantees about the row it builds
    when the minute counter stands at [off]. *)
Definition row_derived (off : nat) (r : Row) (appended : bool) : Prop :=
  time r = time_str off
  /\ kind r = fst (kind_and_reply_to (row_id r))
  /\ reply_to r = snd (kind_and_reply_to (row_id r))
  /\ (exists content, body r = clean_content content)
  /\ appended = negb (negb (Py.truthy (body r)) && negb (String.eqb (kind r) "self")).

(** The branches of a run that starts with [minute_offset = off]. *)
Fixpoint well_timed (off : nat) (es : list effect) : Prop :=
  match es with
  | [] => True
  | DayHeader :: es' => well_timed 0 es'
  | RowLine r b :: es' => row_derived off r b /\ well_timed (off + 5) es'
  | _ :: es' => well_timed off es'
  end.

(** The branches of a run from ordinal 1, [[]] if it raises. *)
Definition day_effects (text : string) : list effect :=
  match parse_trace text 1 "c" with Ok es => es | Err _ => [] end.

Definition NL : string := String Py.newline "".
Definition TAB : string := String Py.tab "".

(** An outline in the tab-delimited grammar whose second row is written in
    the fallback grammar, and that row on its own. *)
Definition fallback_row : string := "1  Bob  Hi there".
Definition mixed_outline : string :=
  "Day 1: T" ++ NL ++ "0" ++ TAB ++ "Alice" ++ TAB ++ "Hello" ++ NL
  ++ fallback_row.

(** An outline of one day with the four rows of the example. *)
Definition day_outline : string :=
  "Day 1: Neighborhood" ++ NL
  ++ "ID" ++ TAB ++ "Bot & Time" ++ TAB ++ "Comment" ++ NL
  ++ "0" ++ TAB ++ "Researchers" ++ TAB ++ "What do you think?" ++ NL
  ++ "1." ++ TAB ++ "Ann" ++ TAB ++ "I like it" ++ NL
  ++ "1.1" ++ TAB ++ "Ben" ++ TAB ++ "Why?" ++ NL
  ++ "1.1.1" ++ TAB ++ "Ann" ++ TAB ++ "Because.".

Definition day_rows : list Row :=
  [mkRow 7 "10:00" "Researchers" "Neighborhood" "What do you think?" "self" "" "c" "0";
   mkRow 7 "10:05" "Ann" "" "I like it" "comment" "0" "c" "1";
   mkRow 7 "10:10" "Ben" "" "Why?" "comment" "1" "c" "1.1";
   mkRow 7 "10:15" "Ann" "" "Because." "comment" "1.1" "c" "1.1.1"].

Definition day_segment : list effect :=
  TableHeader :: map (fun r => RowLine r true) day_rows.

Definition day_trace : list effect := DayHeader :: day_segment.

(** An outline whose thread-creating row and whose second comment have a
    body that is empty once the placeholder is removed. *)
Definition placeholder_outline : string :=
  "Day 1: T" ++ NL
  ++ "0" ++ TAB ++ "Researchers" ++ TAB ++ "/LLM generated sentence/" ++ NL
  ++ "1" ++ TAB ++ "Ann" ++ TAB ++ "First" ++ NL
  ++ "2" ++ TAB ++ "Ben" ++ TAB ++ "  /LLM generated sentence/ " ++ NL
  ++ "3" ++ TAB ++ "Cy" ++ TAB ++ "Third".


End ConvertSpec.

(** ** Vocabulary of the statements about the loops *)

Module MainSpec.
Import Main.

Definition key_of (d : due) : string := d.2.

(** The shuffles of the ticks return permutations of their argument. *)
Definition shuffles_permute (ts : list tick) : Prop :=
  Forall (fun t => forall l, shuffle t l ≡ₚ l) ts.



(** *** A forum, a Publisher and a schedule to run the loops on *)

Definition bot (id slug : string) : gmap string string :=
  list_to_map [("id", id); ("community_slug", slug)].

Definition forum : ForumState :=
  mkForumState
    (list_to_map [("Researchers", "b0"); ("Ann", "b1"); ("Ben", "b2")])
    (list_to_map [("b0", "t0"); ("b1", "t1"); ("b2", "t2")])
    [("community_0_bot_0", bot "b0" "town");
     ("community_0_bot_1", bot "b1" "town");
     ("community_0_bot_2", bot "b2" "town")].

(** A Publisher that always succeeds; its n-th call (from 0) creates
    thread [Tn] and post [Pn]. *)
Definition publisher : provider_t := fun h c =>
  let n := pretty (length h) in
  match c with
  | submit_thread _ _ _ _ =>
      Returned (list_to_map [("threadId", "T" +:+ n); ("postId", "P" +:+ n)])
  | submit_reply _ _ _ _ => Returned (list_to_map [("postId", "P" +:+ n)])
  end.

(** A row as [convert_file] writes it and [csv.DictReader] reads it back. *)
Definition csv (datetime time account title body kind reply_to community : string)
  : gmap string string :=
  list_to_map [("datetime", datetime); ("time", time); ("account", account);
               ("title", title); ("body", body); ("kind", kind);
               ("reply_to", reply_to); ("community", community)].

(** The schedule of an outline of two days: rows "0", "1", "1.1" on the
    first day and rows "0", "1" on the second. *)
Definition day1 : string := "2025-03-01".
Definition day2 : string := "2025-03-02".
Definition row_thread1 : gmap string string :=
  csv day1 "10:00" "Researchers" "Neighborhood" "What do you think?" "self" "" "town".
Definition row_1 : gmap string string :=
  csv day1 "10:05" "Ann" "" "I like it" "comment" "0" "town".
Definition row_1_1 : gmap string string :=
  csv day1 "10:10" "Ben" "" "Why?" "comment" "1" "town".
Definition row_thread2 : gmap string string :=
  csv day2 "10:00" "Researchers" "Day two" "And now?" "self" "" "town".
Definition row_2_1 : gmap string string :=
  csv day2 "10:05" "Ann" "" "Still fine" "comment" "0" "town".

Definition schedule : list (gmap string string) :=
  [row_thread1; row_1; row_1_1; row_thread2; row_2_1].

(** A tick that finds the schedule file unchanged and a shuffle that
    leaves the batch as it is. *)
Definition at_minute (d t : string) : tick := mkTick d t schedule id.

Definition two_days : list tick :=
  [at_minute day1 "10:00"; at_minute day1 "10:05"; at_minute day1 "10:10";
   at_minute day2 "10:00"; at_minute day2 "10:05"].

Definition refs_after (ts : list tick) : list (string * string) :=
  map_to_list (post_refs (run_watch forum publisher ts).1).

(** The schedule file before and after an edit that moves its only row,
    a thread, from 10:00 to 10:01. *)
Definition before_edit : tick :=
  mkTick day1 "10:00" [row_thread1] id.
Definition after_edit : tick :=
  mkTick day1 "10:01"
    [csv day1 "10:01" "Researchers" "Neighborhood" "What do you think?" "self" "" "town"]
    id.

Definition after_first_tick : wstate :=
  (run_watch forum publisher (take 1 two_days)).1.

(** The clock presents the first minute twice. *)
Definition realigned : list tick :=
  [at_minute day1 "10:00"; at_minute day1 "10:00"; at_minute day1 "10:05"].









End MainSpec.

(** ** Further vocabulary for the parser *)

Module ParserSpec.
Import Re Convert.

(** A line that is no day header, or a day header whose numeral [int]
    accepts and whose date exists. *)
Definition day_in_range (start : Z) (l : string) : Prop :=
  match rmatch day_re (Py.strip l) with
  | Some m => exists day d, Py.int (group m 1) = Some day
                            /\ add_days start (day - 1) = Ok d
  | None => True
  end.

(** No character of [s] is [c]. *)
Fixpoint free_of (c : ascii) (s : string) : bool :=
  match s with
  | EmptyString => true
  | String a s' => negb (Ascii.eqb a c) && free_of c s'
  end.

(** Every character of [s] is a decimal digit. *)
Fixpoint all_digits (s : string) : bool :=
  match s with
  | EmptyString => true
  | String a s' => Py.isdigit a && all_digits s'
  end.

(** The value of the digits of [s] read after the value [acc]. *)
Definition digits_value (acc : Z) (s : string) : Z :=
  fold_left (fun acc c => 10 * acc + Z.of_nat (nat_of_ascii c - 48))%Z
            (list_ascii_of_string s) acc.

(** [s] is empty or begins with a character that is no white space. *)
Definition starts_clean (s : string) : Prop :=
  match s with
  | EmptyString => True
  | String a _ => Py.isspace a = false
  end.

(** [r] has date [d], and title [t] if it creates a thread, none if not. *)
Definition dated (d : Z) (t : string) (r : Row) : Prop :=
  datetime r = d /\ title r = (if String.eqb (kind r) "self" then t else "").

(** [now.strftime("%H:%M")] for a clock that shows [h] hours, [m] minutes. *)
Definition clock_time (h m : nat) : string :=
  Py.fmt02 h ++ ":" ++ Py.fmt02 m.

(** An outline with a row before the first day header, lines that are no
    rows, and two days. *)
Definition lenient_outline : string :=
  "9" ++ ConvertSpec.TAB ++ "Ann" ++ ConvertSpec.TAB ++ "early" ++ ConvertSpec.NL
  ++ "just some words" ++ ConvertSpec.NL
  ++ "Day 2: Second" ++ ConvertSpec.NL
  ++ "0" ++ ConvertSpec.TAB ++ "Researchers" ++ ConvertSpec.TAB ++ "Hi" ++ ConvertSpec.NL
  ++ ConvertSpec.NL
  ++ "??? 1.1 no separators" ++ ConvertSpec.NL
  ++ "2.1" ++ ConvertSpec.TAB ++ "Ben" ++ ConvertSpec.TAB ++ "deep".

(** The loop of [parse_schedule_text] once more, recording for every
    iteration the lines from index [i] on beside the branch taken. *)
Fixpoint located_loop (fuel : nat) (start : Z) (community_slug : string)
         (st : pstate) (lines : list string)
  : res (list (list string * effect)) :=
  match lines with
  | [] => Ok []
  | l :: rest =>
      match fuel with
      | O => Err OutOfFuel
      | S fuel' =>
          match iteration start community_slug st l rest with
          | Ok (st', e, rest') =>
              match located_loop fuel' start community_slug st' rest' with
              | Ok hs => Ok ((lines, e) :: hs)
              | Err x => Err x
              end
          | Err x => Err x
          end
      end
  end.

Definition parse_located (text_content : string) (start : Z)
           (community_slug : string) : res (list (list string * effect)) :=
  let lines := Py.split Py.newline (Py.strip text_content) in
  located_loop (length lines) start community_slug
               (mkPState 0 start "" 0) lines.

(** The day number and the title that the day header pattern and [int]
    read off a line. *)
Definition header_of (l : string) : option (Z * string) :=
  match rmatch day_re (Py.strip l) with
  | Some m =>
      match Py.int (group m 1) with
      | Some day => Some (day, Py.strip (group m 2))
      | None => None
      end
  | None => None
  end.

(** The match of a content row on a trimmed line: the tab pattern, or
    else the fallback pattern. *)
Definition row_match (line : string) : option groups :=
  match rmatch row_re line with
  | Some m => Some m
  | None => rmatch alt_row_re line
  end.





End ParserSpec.

(** ** Further vocabulary for the loops *)

Module SchedulerSpec.
Import Main MainSpec.

(** [row.get("datetime") == today], the filter of the single pass. *)
Definition is_today (today : string) (row : gmap string string) : bool :=
  bool_decide (row !! "datetime" = Some today).

(** Every numeral that is a key of [m] is below the size of [m]. *)
Definition numbered (m : gmap string string) : Prop :=
  forall n : nat, is_Some (m !! pretty n) -> n < size m.

(** The call [c] is the one that [row] asks for: the row names an
    account with a bot that has a token, and the call carries that bot and
    the text of the row, as a new thread for kind self and as a reply to
    some thread for kind comment. *)
Definition call_for (state : ForumState) (row : gmap string string) (c : call)
  : Prop :=
  exists bot_id,
    account_mapping state !! field row "account" "" = Some bot_id
    /\ Py.truthy bot_id = true
    /\ falsy (bot_tokens state !! bot_id) = false
    /\ match c with
       | submit_thread b _ title content =>
           b = bot_id /\ field row "kind" "self" = "self"
           /\ title = field row "title" "" /\ content = field row "body" ""
       | submit_reply b thread_id content _ =>
           b = bot_id /\ field row "kind" "self" = "comment"
           /\ content = field row "body" "" /\ Py.truthy thread_id = true
       end.

(** The call [kc], made under its post key, is what the tick [t] asks
    for: the row at the index of the key is scheduled for the date and
    minute of the tick, and the call is the one for that row. *)
Definition justified (state : ForumState) (t : tick) (kc : string * call)
  : Prop :=
  exists idx row,
    rows t !! idx = Some row
    /\ field row "datetime" "" = current_date t
    /\ field row "time" "" = current_time t
    /\ kc.1 = post_key idx (current_date t) (current_time t)
    /\ call_for state row kc.2.

(** The single pass after the thread and the first comment of day 1, and
    a second thread for the same day. *)
Definition after_two_rows : sstate :=
  (process_rows forum publisher day1 [row_thread1; row_1] (mkS ∅ [])).1.
Definition second_thread : gmap string string :=
  csv day1 "10:10" "Ann" "Second" "Another thread" "self" "" "town".

End SchedulerSpec.

(** ** forum_provider.py: the API client

    The HTTP session is an oracle that answers one request.  What the
    server sends is arbitrary JSON: a response body is the value that
    [response.json()] decodes, if it decodes.  An object is the dictionary
    it decodes to, its fields in order and of distinct names; numbers are
    integers. *)

Module Provider.

#[local] Set Warnings "-register-all".
Inductive json : Type :=
| JNull
| JBool (b : bool)
| JNum (n : Z)
| JStr (s : string)
| JArr (items : list json)
| JObj (fields : list (string * json)).

(** The truth value of a decoded value, as [if x:] tests it. *)
Definition jtruthy (j : json) : bool :=
  match j with
  | JNull => false
  | JBool b => b
  | JNum n => negb (n =? 0)%Z
  | JStr s => Py.truthy s
  | JArr items => match items with [] => false | _ => true end
  | JObj fields => match fields with [] => false | _ => true end
  end.

(** [d.get(k)] on a decoded object. *)
Definition jget (k : string) (j : json) : option json :=
  match j with
  | JObj fields => snd <$> List.find (fun kv => String.eqb (fst kv) k) fields
  | _ => None
  end.

(** [s.rstrip("/")] and [s.lstrip("/")] *)
Fixpoint rstrip_slash (s : string) : string :=
  match s with
  | EmptyString => EmptyString
  | String c s' =>
      match rstrip_slash s' with
      | EmptyString =>
          if Ascii.eqb c "/" then EmptyString else String c EmptyString
      | t => String c t
      end
  end.

Fixpoint lstrip_slash (s : string) : string :=
  match s with
  | String c s' => if Ascii.eqb c "/" then lstrip_slash s' else s
  | EmptyString => EmptyString
  end.

(** The fields of a [ForumProvider] that the requests depend on.  The
    admin token is whatever the login response holds. *)
Record provider : Type := mkProvider {
  api_url : string;
  admin_email : string;
  admin_password : string;
  admin_token : option json;
  bot_tokens : gmap string string
}.

(** [ForumProvider(api_url, admin_email, admin_password)] *)
Definition new (api_url admin_email admin_password : string) : provider :=
  mkProvider (rstrip_slash api_url) admin_email admin_password None ∅.

(** What [session.request] is called with.  [authorization] is the value
    that the header formats after the word Bearer, if the header is set;
    the Content-Type header is always application/json and the timeout
    always 30. *)
Record request : Type := mkRequest {
  method : string;
  url : string;
  authorization : option json;
  data : option json;
  params : option json
}.

(** What the session answers: a response with its status code, its body
    as [response.json()] decodes it ([None] if it does not decode) and its
    text, or a [requests.RequestException]. *)
Inductive http_outcome : Type :=
| Response (status_code : Z) (body : option json) (text : string)
| RequestException.

Inductive exn : Type :=
| APIError (status_code : Z) (response_body : json)
| AuthenticationError
| NoTokenError          (* ForumProviderError("No token found for bot ..") *)
| RequestFailed         (* ForumProviderError("Request failed: ..") *)
| KeyError (k : string) (* a response without a field that is read *)
| TypeError.            (* a response of the wrong shape *)

Inductive result (A : Type) : Type :=
| Return (a : A)
| Raise (e : exn).
Arguments Return {A} a.
Arguments Raise {A} e.

Definition bind {A B : Type} (r : result A) (f : A -> result B) : result B :=
  match r with
  | Return a => f a
  | Raise e => Raise e
  end.

Notation "'let*' x := r 'in' k" := (bind r (fun x => k))
  (at level 10, x name, r at level 100, k at level 200).

(** [j[k]] for a string [k]: only an object can be indexed by a name. *)
Definition jindex (k : string) (j : json) : result json :=
  match j with
  | JObj _ =>
      match jget k j with
      | Some v => Return v
      | None => Raise (KeyError k)
      end
  | _ => Raise TypeError
  end.

(** [f"{self.api_url}/{endpoint.lstrip('/')}"] *)
Definition url_of (p : provider) (endpoint : string) : string :=
  api_url p ++ "/" ++ lstrip_slash endpoint.

(** The Authorization header: the token of the call if it is given and
    not empty, else the admin token if it is set and true, else none. *)
Definition authorization_of (p : provider) (token : option string)
  : option json :=
  let admin :=
    match admin_token p with
    | Some a => if jtruthy a then Some a else None
    | None => None
    end in
  match token with
  | Some t => if Py.truthy t then Some (JStr t) else admin
  | None => admin
  end.

(** The request that [_make_request(method, endpoint, token, data,
    params)] sends. *)
Definition request_of (p : provider) (method endpoint : string)
           (token : option string) (data params : option json) : request :=
  mkRequest method (url_of p endpoint) (authorization_of p token) data params.

(** What [_make_request] does with the answer of the session.  On a
    success status with a body that does not decode, [response.json()]
    raises inside the [try]; its exception is a [RequestException]
    (requests 2.27 and later) and becomes the [ForumProviderError] of the
    handler. *)
Definition interpret (o : http_outcome) : result json :=
  match o with
  | RequestException => Raise RequestFailed
  | Response status_code body text =>
      if (400 <=? status_code)%Z then
        Raise (APIError status_code
                 (match body with Some j => j | None => JStr text end))
      else if (status_code =? 204)%Z then Return (JObj [])
      else match body with
           | Some j => Return j
           | None => Raise RequestFailed
           end
  end.

(** [data[k] = v] if [v] is true, on a dictionary under construction. *)
Definition with_field (k : string) (v : json) (fields : list (string * json))
  : list (string * json) :=
  if jtruthy v then (fields ++ [(k, v)])%list else fields.

(** The value of an optional string argument. *)
Definition jopt (o : option string) : json :=
  match o with Some s => JStr s | None => JNull end.

(** The requests of the methods. *)
Definition login_request (p : provider) : request :=
  request_of p "POST" "/auth/login" None
    (Some (JObj [("email", JStr (admin_email p));
                 ("password", JStr (admin_password p))])) None.

Definition create_community_request (p : provider)
           (community_type description name_style : json) : request :=
  request_of p "POST" "/admin/communities" None
    (Some (JObj (with_field "nameStyle" name_style
                   (with_field "description" description
                      [("type", community_type)])))) None.

Definition create_bots_request (p : provider)
           (count subcommunity_id avatar_rules : json) : request :=
  request_of p "POST" "/admin/bots/batch" None
    (Some (JObj (with_field "avatarRules" avatar_rules
                   [("count", count); ("subcommunityId", subcommunity_id)])))
    None.

Definition submit_thread_request (p : provider) (token : string)
           (subcommunity_slug : option string) (title content : string)
  : request :=
  request_of p "POST" "/bot/threads" (Some token)
    (Some (JObj [("subcommunitySlug", jopt subcommunity_slug);
                 ("title", JStr title); ("content", JStr content)])) None.

Definition submit_reply_request (p : provider) (token : string)
           (thread_id content : string) (parent_post_id : option string)
  : request :=
  request_of p "POST" "/bot/posts" (Some token)
    (Some (JObj (with_field "parentPostId" (jopt parent_post_id)
                   [("threadId", JStr thread_id); ("content", JStr content)])))
    None.

(** The dataclasses [Community] and [BotAccount], with the values of the
    response as they are. *)
Record Community : Type := mkCommunity {
  c_id : json;
  c_name : json;
  c_slug : json;
  c_invite_code : json;
  c_password : json
}.

Record BotAccount : Type := mkBotAccount {
  b_id : json;
  b_display_name : json;
  b_email : json;
  b_access_token : json;
  b_refresh_token : json
}.

(** The constructor call of [create_community]; [response.get] is only
    reached on an object. *)
Definition community_of (response : json) : result Community :=
  let* id := jindex "id" response in
  let* name := jindex "name" response in
  let* slug := jindex "slug" response in
  let* invite_code := jindex "inviteCode" response in
  Return (mkCommunity id name slug invite_code
            (default JNull (jget "password" response))).

(** One [BotAccount(..)] of the comprehension in [create_bots]. *)
Definition bot_of (bot : json) : result BotAccount :=
  let* id := jindex "id" bot in
  let* display_name := jindex "displayName" bot in
  let* email := jindex "email" bot in
  Return (mkBotAccount id display_name email
            (default JNull (jget "accessToken" bot))
            (default JNull (jget "refreshToken" bot))).

(** What [for bot in x] iterates over: the items of a list, the names of
    an object's fields, the characters of a string. *)
Definition elements (x : json) : result (list json) :=
  match x with
  | JArr items => Return items
  | JObj fields => Return (JStr <$> (fst <$> fields))
  | JStr s => Return ((fun c => JStr (String c EmptyString))
                        <$> list_ascii_of_string s)
  | _ => Raise TypeError
  end.

Fixpoint bots_of (items : list json) : result (list BotAccount) :=
  match items with
  | [] => Return []
  | bot :: items' =>
      let* b := bot_of bot in
      let* bs := bots_of items' in
      Return (b :: bs)
  end.

Section Session.
Variable http : request -> http_outcome.

(** [_make_request(method, endpoint, token, data, params)] *)
Definition make_request (p : provider) (method endpoint : string)
           (token : option string) (data params : option json) : result json :=
  interpret (http (request_of p method endpoint token data params)).

(** [login()]: the provider with its admin token set, or the exception;
    an [APIError] becomes an [AuthenticationError]. *)
Definition login (p : provider) : result provider :=
  match interpret (http (login_request p)) with
  | Return response =>
      let* tokens := jindex "tokens" response in
      let* access_token := jindex "accessToken" tokens in
      Return (mkProvider (api_url p) (admin_email p) (admin_password p)
                         (Some access_token) (bot_tokens p))
  | Raise (APIError _ _) => Raise AuthenticationError
  | Raise e => Raise e
  end.

(** [create_community(community_type, description, name_style)] *)
Definition create_community (p : provider)
           (community_type description name_style : json) : result Community :=
  let* response := interpret (http (create_community_request
                                      p community_type description
                                      name_style)) in
  community_of response.

(** [create_bots(count, subcommunity_id, avatar_rules)] *)
Definition create_bots (p : provider) (count subcommunity_id avatar_rules : json)
  : result (list BotAccount) :=
  let* response := interpret (http (create_bots_request
                                      p count subcommunity_id
                                      avatar_rules)) in
  let* bots := jindex "bots" response in
  let* items := elements bots in
  bots_of items.

(** [set_bot_token(bot_id, token)] *)
Definition set_bot_token (p : provider) (bot_id token : string) : provider :=
  mkProvider (api_url p) (admin_email p) (admin_password p) (admin_token p)
             (<[bot_id := token]> (bot_tokens p)).

(** [submit_thread(bot_id, subcommunity_slug, title, content)] *)
Definition submit_thread (p : provider) (bot_id : string)
           (subcommunity_slug : option string) (title content : string)
  : result json :=
  match bot_tokens p !! bot_id with
  | Some token =>
      if Py.truthy token then
        interpret (http (submit_thread_request p token subcommunity_slug
                           title content))
      else Raise NoTokenError
  | None => Raise NoTokenError
  end.

(** [submit_reply(bot_id, thread_id, content, parent_post_id)] *)
Definition submit_reply (p : provider) (bot_id thread_id content : string)
           (parent_post_id : option string) : result json :=
  match bot_tokens p !! bot_id with
  | Some token =>
      if Py.truthy token then
        interpret (http (submit_reply_request p token thread_id content
                           parent_post_id))
      else Raise NoTokenError
  | None => Raise NoTokenError
  end.

(** [get_bot_stats(bot_id)] *)
Definition get_bot_stats (p : provider) (bot_id : string) : result json :=
  match bot_tokens p !! bot_id with
  | Some token =>
      if Py.truthy token then
        make_request p "GET" "/bot/stats" (Some token) None None
      else Raise NoTokenError
  | None => Raise NoTokenError
  end.

End Session.

End Provider.

(** ** main.py: init_forum

    The server answers a request knowing the requests made before it.  The
    state is the dictionary of [load_state()] after the three
    [if k not in state] lines: a key that the file lacks is the empty
    dictionary; [bot_tokens] may still be absent.  A run gives the state
    that the last [save_state] wrote, if any, the requests made and the
    exception that ended it, if any. *)

Module Init.
Import Provider.

(** A dictionary key made of a decoded value: a string, a number ([True]
    and [False] are the keys 1 and 0) or [None]; lists and objects are not
    hashable. *)
Inductive key : Type :=
| KStr (s : string)
| KNum (n : Z)
| KNone.

#[global] Instance key_eq_dec : EqDecision key.
Proof. solve_decision. Defined.

#[global] Instance key_countable : Countable key.
Proof.
  apply (inj_countable'
           (fun k => match k with
                     | KStr s => inl s
                     | KNum n => inr (inl n)
                     | KNone => inr (inr ())
                     end)
           (fun x : string + (Z + ()) =>
              match x with
              | inl s => KStr s
              | inr (inl n) => KNum n
              | inr (inr _) => KNone
              end)).
  by intros [].
Defined.

Definition key_of (j : json) : option key :=
  match j with
  | JStr s => Some (KStr s)
  | JNum n => Some (KNum n)
  | JBool b => Some (KNum (if b then 1 else 0))
  | JNull => Some KNone
  | JArr _ | JObj _ => None
  end.

Record state : Type := mkState {
  st_communities : gmap string json;
  st_bots : gmap string json;
  st_account_mapping : gmap key json;
  st_bot_tokens : option (gmap key json)
}.

(** One entry of [config["communities"]]: what [comm_config.get(k)]
    gives for each key that is read, [None] for a key that is absent. *)
Record comm_config : Type := mkConfig {
  active : option json;
  name_style : option json;
  comm_type : option json;
  description : option json;
  bot_count : option json;
  avatar_rules : option json
}.

Record run : Type := mkRun {
  saved : option state;
  requests : list (option string * request);
  outcome : option exn
}.

(** [f"community_{i}"] *)
Definition comm_key (i : nat) : string := "community_" ++ pretty i.

(** [not comm_config.get("active", True)] *)
Definition inactive (c : comm_config) : bool :=
  negb (jtruthy (default (JBool true) (active c))).

(** [state["communities"][comm_key] = {..}] *)
Definition community_entry (c : Community) : json :=
  JObj [("id", c_id c); ("name", c_name c); ("slug", c_slug c);
        ("invite_code", c_invite_code c); ("password", c_password c)].

Definition set_community (k : string) (c : Community) (st : state) : state :=
  mkState (<[k := community_entry c]> (st_communities st)) (st_bots st)
          (st_account_mapping st) (st_bot_tokens st).

(** [if "bot_tokens" not in state: state["bot_tokens"] = {}] *)
Definition init_bot_tokens (st : state) : state :=
  mkState (st_communities st) (st_bots st) (st_account_mapping st)
          (Some (default ∅ (st_bot_tokens st))).

(** [state["bots"][bot_key] = {..}] *)
Definition bot_entry (b : BotAccount) (c : Community) : json :=
  JObj [("id", b_id b); ("display_name", b_display_name b);
        ("email", b_email b); ("community_id", c_id c);
        ("community_slug", c_slug c)].

Definition set_bot (k : string) (b : BotAccount) (c : Community) (st : state)
  : state :=
  mkState (st_communities st) (<[k := bot_entry b c]> (st_bots st))
          (st_account_mapping st) (st_bot_tokens st).

Definition set_mapping (name : key) (id : json) (st : state) : state :=
  mkState (st_communities st) (st_bots st)
          (<[name := id]> (st_account_mapping st)) (st_bot_tokens st).

Definition set_token (id : key) (token : json) (st : state) : state :=
  mkState (st_communities st) (st_bots st) (st_account_mapping st)
          (Some (<[id := token]> (default ∅ (st_bot_tokens st)))).

(** [for j, bot in enumerate(bots)], from index [j] on. *)
Fixpoint add_bots (comm_key : string) (community : Community) (j : nat)
         (bots : list BotAccount) (st : state) : result state :=
  match bots with
  | [] => Return st
  | bot :: bots' =>
      let bot_key := comm_key ++ "_bot_" ++ pretty j in
      let st := set_bot bot_key bot community st in
      match key_of (b_display_name bot) with
      | None => Raise TypeError
      | Some name =>
          let st := set_mapping name (b_id bot) st in
          if jtruthy (b_access_token bot) then
            match key_of (b_id bot) with
            | None => Raise TypeError
            | Some id =>
                add_bots comm_key community (S j) bots'
                         (set_token id (b_access_token bot) st)
            end
          else add_bots comm_key community (S j) bots' st
      end
  end.

Section Server.
Variable server : list request -> request -> http_outcome.

Definition sent (log : list (option string * request)) : list request :=
  snd <$> log.

(** [for i, comm_config in enumerate(communities_config)], from index [i]
    on; [saved] is what the state file holds. *)
Fixpoint create_all (p : provider) (i : nat) (cs : list comm_config)
         (st : state) (saved : option state)
         (log : list (option string * request)) : run :=
  match cs with
  | [] => mkRun saved log None
  | c :: cs' =>
      if inactive c then create_all p (S i) cs' st saved log else
      let key := comm_key i in
      if bool_decide (is_Some (st_communities st !! key))
      then create_all p (S i) cs' st saved log else
      let name_style := default (JStr "nature") (name_style c) in
      let comm_type := default (JStr "INVITE_ONLY") (comm_type c) in
      let description := default JNull (description c) in
      let log1 :=
        (log ++ [(Some key, create_community_request p comm_type description
                              name_style)])%list in
      match create_community (server (sent log)) p comm_type description
                             name_style with
      | Raise e => mkRun saved log1 (Some e)
      | Return community =>
          let st := set_community key community st in
          let saved := Some st in
          let bot_count := default (JNum 10) (bot_count c) in
          let avatar_rules := default JNull (avatar_rules c) in
          let log2 :=
            (log1 ++ [(Some key, create_bots_request p bot_count
                                   (c_id community) avatar_rules)])%list in
          match create_bots (server (sent log1)) p bot_count (c_id community)
                            avatar_rules with
          | Raise e => mkRun saved log2 (Some e)
          | Return bots =>
              match add_bots key community 0 bots (init_bot_tokens st) with
              | Raise e => mkRun saved log2 (Some e)
              | Return st => create_all p (S i) cs' st (Some st) log2
              end
          end
      end
  end.

(** [init_forum(provider, config)] on the state that the file holds. *)
Definition init_forum (p : provider) (config : list comm_config) (st : state)
  : run :=
  let log := [(None, login_request p)] in
  match login (server []) p with
  | Raise e => mkRun None log (Some e)
  | Return p => create_all p 0 config st None log
  end.

End Server.

End Init.

(** ** Vocabulary for the API client and the forum setup *)

Module SetupSpec.
Import Provider Init.

(** [n] slashes. *)
Fixpoint slashes (n : nat) : string :=
  match n with
  | O => EmptyString
  | S n' => String "/" (slashes n')
  end.

(** The request of [create_bots], whatever its arguments. *)
Definition is_bots_request (r : request) : Prop :=
  exists p count subcommunity_id avatar_rules,
    r = create_bots_request p count subcommunity_id avatar_rules.

(** The dictionary [state["bot_tokens"]], empty if the key is absent. *)
Definition tokens_of (st : state) : gmap key json :=
  default ∅ (st_bot_tokens st).

(** What the state file holds after a run that started from [st]. *)
Definition file_after (st : state) (r : run) : state :=
  default st (saved r).

(** An entry of the config with a pending community in the state [st]. *)
Definition pending (config : list comm_config) (st : state) (k : string)
  : Prop :=
  exists i c, config !! i = Some c /\ inactive c = false
              /\ k = comm_key i /\ st_communities st !! k = None.

(** A provider, a config of one community with two bots, and servers that
    answer by the number of requests seen. *)
Definition admin : provider :=
  new "https://forum.example/api//" "admin@forum.example" "secret".

Definition alice : provider := set_bot_token admin "b1" "alice-token".

Definition login_ok : http_outcome :=
  Response 200
    (Some (JObj [("tokens", JObj [("accessToken", JStr "admin-token")])]))
    "".

Definition community_ok : http_outcome :=
  Response 201
    (Some (JObj [("id", JStr "c1"); ("name", JStr "Quiet Meadow");
                 ("slug", JStr "quiet-meadow"); ("inviteCode", JStr "x7")]))
    "".

Definition bots_ok : http_outcome :=
  Response 201
    (Some (JObj [("bots",
                  JArr [JObj [("id", JStr "b1"); ("displayName", JStr "Alice");
                              ("email", JStr "alice@bots");
                              ("accessToken", JStr "alice-token")];
                        JObj [("id", JStr "b2"); ("displayName", JStr "Bob");
                              ("email", JStr "bob@bots")]])]))
    "".

Definition unavailable : http_outcome := Response 503 None "unavailable".

Definition created : http_outcome :=
  Response 201 (Some (JObj [("threadId", JStr "t1"); ("postId", JStr "p1")]))
           "".

Definition healthy (log : list request) (r : request) : http_outcome :=
  match length log with
  | 0 => login_ok
  | 1 => community_ok
  | 2 => bots_ok
  | _ => unavailable
  end.

Definition failing_bots (log : list request) (r : request) : http_outcome :=
  match length log with
  | 0 => login_ok
  | 1 => community_ok
  | _ => unavailable
  end.

Definition one_community : list comm_config :=
  [mkConfig None None None None (Some (JNum 2)) None].

Definition no_state : state := mkState ∅ ∅ ∅ None.

Definition logged_in : provider :=
  mkProvider (api_url admin) (admin_email admin) (admin_password admin)
             (Some (JStr "admin-token")) (Provider.bot_tokens admin).

End SetupSpec.

(** * Properties of the outline parser *)

Module ConvertFacts.
Import Re Convert ConvertSpec ParserSpec.

Lemma collect_body_length content rest :
  length (snd (collect_body content rest)) <= length rest.
Proof.
  revert content; induction rest as [|l rest IH]; intros content; simpl.
  - lia.
  - destruct (stops_body l); simpl; [lia|].
    specialize (IH (content ++ " " ++ Py.strip l)). lia.
Qed.

(** The look-ahead appends the lines up to the first one that stops it,
    each after a single space. *)
Lemma collect_body_spec content rest :
  exists taken,
    rest = (taken ++ (collect_body content rest).2)%list
    /\ Forall (fun l => stops_body l = false) taken
    /\ (collect_body content rest).1
       = fold_left (fun acc l => acc ++ " " ++ Py.strip l) taken content
    /\ match (collect_body content rest).2 with
       | [] => True
       | l :: _ => stops_body l = true
       end.
Proof.
  revert content; induction rest as [|l rest IH]; intros content.
  - exists []. by repeat split.
  - simpl. destruct (stops_body l) eqn:E.
    + exists []. by repeat split.
    + destruct (IH (content ++ " " ++ Py.strip l)) as (taken & H1 & H2 & H3 & H4).
      exists (l :: taken). repeat split; try done.
      * simpl. by rewrite <- H1.
      * by constructor.
Qed.

Ltac split_iteration H :=
  unfold iteration in H;
  repeat (case_match; simplify_eq; try discriminate).

Lemma iteration_rest start c st l rest st' e rest' :
  iteration start c st l rest = Ok (st', e, rest') ->
  length rest' <= length rest.
Proof.
  intros H. split_iteration H; try lia.
  all: match goal with
       | E : collect_body ?x ?y = _ |- _ =>
           generalize (collect_body_length x y); rewrite E; simpl; lia
       end.
Qed.


Lemma iteration_effect start c st l rest st' e rest' :
  iteration start c st l rest = Ok (st', e, rest') ->
  match e with
  | DayHeader => minute_offset st' = 0
  | RowLine r b =>
      row_derived (minute_offset st) r b
      /\ minute_offset st' = minute_offset st + 5
  | _ => minute_offset st' = minute_offset st
  end.
Proof.
  intros H. split_iteration H;
    cbn [time kind reply_to row_id body minute_offset]; try done.
  all: unfold row_derived; cbn [time kind reply_to row_id body];
    match goal with E : kind_and_reply_to _ = _ |- _ => rewrite E end;
    cbn [fst snd]; repeat split; try done; try (by eexists).
  all: repeat match goal with
              | E : (_ =? _) = _ |- _ => rewrite E in *; clear E
              end;
       destruct (Py.truthy (clean_content _)); simpl in *; congruence.
Qed.

(** The loop never runs out of fuel when it starts with one unit per line. *)
Lemma trace_loop_fuel fuel start c st lines :
  length lines <= fuel ->
  trace_loop fuel start c st lines <> Err OutOfFuel.
Proof.
  revert st lines; induction fuel as [|fuel IH]; intros st lines Hlen.
  - destruct lines; simpl in *; [done|lia].
  - destruct lines as [|l rest]; simpl; [done|].
    destruct (iteration start c st l rest) as [[[st' e] rest']|x] eqn:E.
    + apply iteration_rest in E as Hle.
      specialize (IH st' rest' ltac:(simpl in Hlen; lia)).
      destruct (trace_loop fuel start c st' rest'); [done|congruence].
    + split_iteration E.
      unfold add_days in *. repeat case_match; simplify_eq; done.
Qed.

(** The recorded branches determine the rows of the real loop. *)
Lemma parse_loop_trace fuel start c st lines rows :
  parse_loop fuel start c st lines rows =
  match trace_loop fuel start c st lines with
  | Ok es => Ok (rows ++ kept es)%list
  | Err x => Err x
  end.
Proof.
  revert st lines rows; induction fuel as [|fuel IH]; intros st lines rows.
  - destruct lines; simpl; [by rewrite app_nil_r|done].
  - destruct lines as [|l rest]; simpl; [by rewrite app_nil_r|].
    destruct (iteration start c st l rest) as [[[st' e] rest']|x]; [|done].
    rewrite IH. destruct (trace_loop fuel start c st' rest'); [|done].
    f_equal. destruct e as [| | | |r [|]]; simpl; try done.
    by rewrite <- app_assoc.
Qed.

Lemma parse_schedule_text_trace text start c :
  parse_schedule_text text start c =
  match parse_trace text start c with
  | Ok es => Ok (kept es)
  | Err x => Err x
  end.
Proof. unfold parse_schedule_text, parse_trace. by rewrite parse_loop_trace. Qed.

(** [parse_schedule_text] terminates: it returns rows or raises. *)
Lemma parse_schedule_text_total text start c :
  (exists rows, parse_schedule_text text start c = Ok rows)
  \/ parse_schedule_text text start c = Err DayOutOfRange.
Proof.
  rewrite parse_schedule_text_trace. unfold parse_trace.
  pose proof (trace_loop_fuel
    (length (Py.split Py.newline (Py.strip text))) start c
    (mkPState 0 start "" 0) (Py.split Py.newline (Py.strip text))
    ltac:(lia)) as Hf.
  destruct (trace_loop _ _ _ _ _) as [es|[|]]; [left; eauto|by right|done].
Qed.

Lemma trace_loop_well_timed fuel start c st lines es :
  trace_loop fuel start c st lines = Ok es ->
  well_timed (minute_offset st) es.
Proof.
  revert st lines es; induction fuel as [|fuel IH]; intros st lines es H.
  - destruct lines; simpl in H; by simplify_eq.
  - destruct lines as [|l rest]; simpl in H; [by simplify_eq|].
    destruct (iteration start c st l rest) as [[[st' e] rest']|x] eqn:E;
      [|done].
    destruct (trace_loop fuel start c st' rest') as [es'|] eqn:T; [|done].
    simplify_eq. apply IH in T. apply iteration_effect in E.
    destruct e as [| | | |r b]; simpl.
    5: { destruct E as [Hd E]. split; [done|]. by rewrite <- E. }
    all: by rewrite E in T.
Qed.

Lemma parse_trace_well_timed text start c es :
  parse_trace text start c = Ok es -> well_timed 0 es.
Proof. apply trace_loop_well_timed. Qed.

(** [time_str] is the clock reading [minute_offset] minutes after 10:00
    (hours are not wrapped at 24). *)
Lemma time_str_clock off :
  time_str off = Py.fmt02 ((600 + off) / 60) ++ ":" ++ Py.fmt02 ((600 + off) mod 60).
Proof.
  unfold time_str, base_time.
  replace (600 + off) with (off + 10 * 60) by lia.
  rewrite Nat.div_add, Nat.Div0.mod_add by lia.
  by rewrite (Nat.add_comm 10).
Qed.

Lemma well_timed_split p pre e post :
  well_timed (5 * p) (pre ++ e :: post) ->
  well_timed (5 * position_from p pre) (e :: post).
Proof.
  revert p; induction pre as [|x pre IH]; intros p H; [done|].
  destruct x as [| | | |r b]; cbn [app well_timed] in H |- *;
    try (apply (IH p H)).
  - apply (IH 0 H).
  - destruct H as [_ H]. apply (IH (S p)).
    by replace (5 * S p) with (5 * p + 5) by lia.
Qed.

(** Within a day, the i-th recognized row is [5 * i] minutes after the
    first, and its kind and parent follow from its id alone. *)
Lemma well_timed_segment off seg post :
  no_day_header seg = true ->
  well_timed off (seg ++ post) ->
  Forall (fun r => kind r = fst (kind_and_reply_to (row_id r))
                   /\ reply_to r = snd (kind_and_reply_to (row_id r)))
         (recognized seg)
  /\ map time (recognized seg)
     = imap (fun i _ => time_str (off + 5 * i)) (recognized seg).
Proof.
  revert off; induction seg as [|x seg IH]; intros off Hn H; [done|].
  simpl in Hn. apply andb_prop in Hn as [Hx Hn].
  destruct x as [| | | |r b]; cbn [app well_timed recognized] in H |- *;
    try discriminate; try (apply (IH off Hn H)).
  destruct H as [(Ht & Hk & Hr & _) H].
  destruct (IH (off + 5) Hn H) as [IH1 IH2]. split.
  - by constructor.
  - cbn [map imap]. rewrite Ht, Nat.mul_0_r, Nat.add_0_r. f_equal.
    rewrite IH2. apply imap_ext. intros i ? _. simpl. f_equal. lia.
Qed.

(** C7 (fails on the code).  A line that begins a new row in the fallback
    grammar (two or more spaces) does not stop the accumulation of the
    previous body: the look-ahead only knows the tab-delimited grammar.
    Here the line [fallback_row] is a content row when the outer loop meets
    it on its own, yet after a content line it is merged into that line's
    body and the outline yields one record instead of two. *)
Theorem continuation_swallows_fallback_row :
  iteration 1 "c" (mkPState 1 1 "T" 5) fallback_row []
    = Ok (mkPState 1 1 "T" 10,
          RowLine (mkRow 1 "10:05" "Bob" "" "Hi there" "comment" "0" "c" "1")
                  true,
          [])
  /\ stops_body fallback_row = false
  /\ parse_schedule_text mixed_outline 1 "c"
     = Ok [mkRow 1 "10:00" "Alice" "T" "Hello 1  Bob  Hi there" "self" "" "c" "0"].
Proof. repeat split; vm_compute; reflexivity. Qed.

(** C8.  In a run of the parser, take a day header and the iterations
    [seg] that follow it up to (at most) the next day header.  If the
    content rows recognized there have the ids "0", "1", "1.1", "1.1.1" in
    that order, their times are 10:00, 10:05, 10:10, 10:15, their reply_to
    values "", "0", "1", "1.1", the first is of kind self and the others of
    kind comment; the rows that are appended are those of the output. *)
Theorem day_of_four_rows text start c es pre seg post :
  parse_trace text start c = Ok es ->
  es = (pre ++ DayHeader :: seg ++ post)%list ->
  no_day_header seg = true ->
  map row_id (recognized seg) = ["0"; "1"; "1.1"; "1.1.1"] ->
  parse_schedule_text text start c = Ok (kept es)
  /\ map time (recognized seg) = ["10:00"; "10:05"; "10:10"; "10:15"]
  /\ map reply_to (recognized seg) = [""; "0"; "1"; "1.1"]
  /\ map kind (recognized seg) = ["self"; "comment"; "comment"; "comment"].
Proof.
  intros Ht -> Hn Hids. split.
  { by rewrite parse_schedule_text_trace, Ht. }
  apply parse_trace_well_timed in Ht.
  apply (well_timed_split 0) in Ht. cbn [well_timed] in Ht.
  destruct (well_timed_segment 0 seg post Hn Ht) as [Hk Htime].
  rewrite Htime. clear Htime Ht.
  destruct (recognized seg) as [|r0 [|r1 [|r2 [|r3 [|]]]]]; try discriminate.
  injection Hids as H0 H1 H2 H3.
  repeat match goal with
         | H : Forall _ (_ :: _) |- _ =>
             apply Forall_cons in H as [[? ?] H]
         end.
  cbn [map].
  repeat match goal with
         | H : kind _ = _ |- _ => rewrite H; clear H
         | H : reply_to _ = _ |- _ => rewrite H; clear H
         end.
  rewrite H0, H1, H2, H3. repeat split; vm_compute; reflexivity.
Qed.

Lemma day_of_four_rows_witness :
  parse_trace day_outline 7 "c" = Ok day_trace
  /\ parse_schedule_text day_outline 7 "c" = Ok day_rows
  /\ map time day_rows = ["10:00"; "10:05"; "10:10"; "10:15"]
  /\ map reply_to day_rows = [""; "0"; "1"; "1.1"]
  /\ map kind day_rows = ["self"; "comment"; "comment"; "comment"].
Proof.
  split; [vm_compute; reflexivity|].
  exact (day_of_four_rows day_outline 7 "c" day_trace [] day_segment []
           ltac:(vm_compute; reflexivity) eq_refl eq_refl eq_refl).
Defined.

Lemma truthy_false s : Py.truthy s = false <-> s = "".
Proof. by destruct s. Qed.

Lemma well_timed_elem off es r b :
  well_timed off es -> RowLine r b ∈ es -> exists off', row_derived off' r b.
Proof.
  revert off; induction es as [|x es IH]; intros off H Hin.
  - by apply elem_of_nil in Hin.
  - apply elem_of_cons in Hin as [<-|Hin].
    + destruct H as [H _]. eauto.
    + destruct x as [| | | |r' b']; cbn [well_timed] in H; eauto.
      destruct H as [_ H]. eauto.
Qed.

Lemma elem_of_kept es r : r ∈ kept es <-> RowLine r true ∈ es.
Proof.
  induction es as [|x es IH]; simpl.
  - split; intros H; by apply elem_of_nil in H.
  - destruct x as [| | | |r' [|]]; rewrite ?elem_of_cons, IH;
      split; intros H; try (by right);
      destruct H as [H|H]; try discriminate; try done.
    + left. congruence.
    + by right.
    + left. congruence.
    + by right.
Qed.

(** *** The lines that the iterations read *)

Lemma located_loop_trace fuel start c st lines :
  trace_loop fuel start c st lines =
  match located_loop fuel start c st lines with
  | Ok hs => Ok hs.*2
  | Err x => Err x
  end.
Proof.
  revert st lines; induction fuel as [|fuel IH]; intros st lines.
  - by destruct lines.
  - destruct lines as [|l rest]; simpl; [done|].
    destruct (iteration start c st l rest) as [[[st' e] rest']|x]; [|done].
    rewrite IH. by destruct (located_loop fuel start c st' rest').
Qed.

Lemma parse_located_trace text start c :
  parse_trace text start c =
  match parse_located text start c with
  | Ok hs => Ok hs.*2
  | Err x => Err x
  end.
Proof. apply located_loop_trace. Qed.

(** Every recorded iteration is an iteration of the loop, which goes on
    from what it leaves. *)
Lemma located_loop_split fuel start c st lines pre ls e hs :
  located_loop fuel start c st lines = Ok (pre ++ (ls, e) :: hs)%list ->
  exists fuel' st0 l rest st' rest',
    ls = l :: rest
    /\ iteration start c st0 l rest = Ok (st', e, rest')
    /\ located_loop fuel' start c st' rest' = Ok hs.
Proof.
  revert fuel st lines; induction pre as [|x pre IH]; intros fuel st lines H.
  all: destruct fuel as [|fuel]; destruct lines as [|l rest]; try done.
  all: simpl in H;
    destruct (iteration start c st l rest) as [[[st' e'] rest']|] eqn:E;
      [|done];
    destruct (located_loop fuel start c st' rest') as [hs'|] eqn:T; [|done];
    simplify_eq.
  - by exists fuel, st, l, rest, st', rest'.
  - by apply (IH _ _ _ T).
Qed.


Lemma collect_body_suffix content rest :
  exists taken, rest = (taken ++ (collect_body content rest).2)%list.
Proof.
  destruct (collect_body_spec content rest) as (taken & H & _). eauto.
Qed.

(** An iteration that does not raise leaves a suffix of the lines. *)
Lemma iteration_suffix start c st l rest st' e rest' :
  iteration start c st l rest = Ok (st', e, rest') ->
  exists taken, rest = (taken ++ rest')%list.
Proof.
  intros H. split_iteration H; try (by exists []).
  all: match goal with
       | E : collect_body ?x ?y = _ |- _ =>
           destruct (collect_body_suffix x y) as [taken Ht];
           rewrite E in Ht; by exists taken
       end.
Qed.

Lemma located_loop_suffix fuel start c st lines hs ls e :
  located_loop fuel start c st lines = Ok hs ->
  (ls, e) ∈ hs -> exists before, lines = (before ++ ls)%list.
Proof.
  revert st lines hs; induction fuel as [|fuel IH]; intros st lines hs H Hin.
  - destruct lines; simplify_eq/=. by apply elem_of_nil in Hin.
  - destruct lines as [|l rest]; simpl in H.
    { simplify_eq. by apply elem_of_nil in Hin. }
    destruct (iteration start c st l rest) as [[[st' e'] rest']|] eqn:E;
      [|done].
    destruct (located_loop fuel start c st' rest') as [hs'|] eqn:T; [|done].
    simplify_eq. apply elem_of_cons in Hin as [[= -> ->]|Hin].
    + by exists [].
    + destruct (IH _ _ _ T Hin) as [before Hb].
      destruct (iteration_suffix _ _ _ _ _ _ _ _ E) as [taken ->].
      exists (l :: taken ++ before)%list. rewrite Hb. simpl.
      by rewrite <- app_assoc.
Qed.






(** C10.  The time of a recognized content row is 10:00 plus five minutes
    for every content row recognized before it since the last day header,
    whether those rows were appended or dropped; the output consists of the
    appended rows only, so two consecutive records of a day can be more
    than five minutes apart: in [placeholder_outline] the dropped row "2"
    lies between the records of 10:05 and 10:15. *)
Theorem time_counts_every_recognized_row :
  (forall text start c es,
     parse_trace text start c = Ok es ->
     parse_schedule_text text start c = Ok (kept es)
     /\ forall pre r b post,
          es = (pre ++ RowLine r b :: post)%list ->
          time r = time_str (5 * position pre))
  /\ exists r0 r1 r2 dropped,
       parse_schedule_text placeholder_outline 1 "c" = Ok [r0; r1; r2]
       /\ RowLine dropped false ∈ day_effects placeholder_outline
       /\ time r1 = "10:05" /\ time dropped = "10:10" /\ time r2 = "10:15".
Proof.
  split.
  - intros text start c es Ht. split.
    { by rewrite parse_schedule_text_trace, Ht. }
    intros pre r b post ->. apply parse_trace_well_timed in Ht.
    apply (well_timed_split 0) in Ht. by destruct Ht as [(Ht & _) _].
  - exists (mkRow 1 "10:00" "Researchers" "T" "" "self" "" "c" "0"),
           (mkRow 1 "10:05" "Ann" "" "First" "comment" "0" "c" "1"),
           (mkRow 1 "10:15" "Cy" "" "Third" "comment" "0" "c" "3"),
           (mkRow 1 "10:10" "Ben" "" "" "comment" "0" "c" "2").
    repeat split; try (vm_compute; reflexivity).
    apply list_elem_of_In. vm_compute. do 3 right. left. reflexivity.
Qed.

Lemma time_counts_every_recognized_row_witness :
  parse_trace placeholder_outline 1 "c" = Ok (day_effects placeholder_outline)
  /\ parse_schedule_text placeholder_outline 1 "c"
     = Ok (kept (day_effects placeholder_outline)).
Proof.
  assert (H : parse_trace placeholder_outline 1 "c"
              = Ok (day_effects placeholder_outline))
    by (vm_compute; reflexivity).
  split; [exact H|].
  exact (proj1 (proj1 time_counts_every_recognized_row
                  placeholder_outline 1%Z "c" _ H)).
Defined.

End ConvertFacts.

(** * Properties of the dispatch loops *)

Module MainFacts.
Import Main MainSpec.

Lemma length_append (s t : string) :
  String.length (s ++ t) = String.length s + String.length t.
Proof. induction s as [|a s IH]; simpl; [done|by rewrite IH]. Qed.

Lemma append_cancel_r (s1 s2 t : string) : s1 ++ t = s2 ++ t -> s1 = s2.
Proof.
  revert s2; induction s1 as [|a s1 IH]; intros [|b s2] H; simpl in H.
  - done.
  - apply (f_equal String.length) in H.
    rewrite ?length_append in H. simpl in H. rewrite ?length_append in H. lia.
  - apply (f_equal String.length) in H.
    rewrite ?length_append in H. simpl in H. rewrite ?length_append in H. lia.
  - injection H as -> H. f_equal. by apply IH.
Qed.

(** On one tick the post key determines the row index. *)
Lemma post_key_inj i j d t : post_key i d t = post_key j d t -> i = j.
Proof.
  unfold post_key. intros H. apply append_cancel_r in H.
  by apply (inj pretty) in H.
Qed.

Lemma due_from_elem idx rows d t ex x :
  x ∈ due_from idx rows d t ex ->
  key_of x = post_key (x.1.1) d t /\ (key_of x ∉ ex) /\ idx <= x.1.1.
Proof.
  revert idx; induction rows as [|row rows IH]; intros idx Hin; simpl in Hin.
  - by apply elem_of_nil in Hin.
  - case_match eqn:E.
    + apply elem_of_cons in Hin as [->|Hin].
      * apply andb_prop in E as [E Hex]. apply andb_prop in E as [Ed Et].
        apply String.eqb_eq in Ed, Et. unfold key_of; simpl.
        rewrite Ed, Et. repeat split; [|lia].
        apply negb_true_iff, bool_decide_eq_false in Hex.
        by rewrite Ed, Et in Hex.
      * destruct (IH _ Hin) as (? & ? & ?). repeat split; [done..|lia].
    + destruct (IH _ Hin) as (? & ? & ?). repeat split; [done..|lia].
Qed.

Lemma due_from_NoDup idx rows d t ex :
  NoDup (key_of <$> due_from idx rows d t ex).
Proof.
  revert idx; induction rows as [|row rows IH]; intros idx; simpl.
  - constructor.
  - case_match eqn:E; [|apply IH].
    rewrite fmap_cons. constructor; [|apply IH].
    intros Hin. apply list_elem_of_fmap in Hin as (x & Hk & Hin).
    apply due_from_elem in Hin as (Hx & _ & Hle).
    apply andb_prop in E as [E _]. apply andb_prop in E as [Ed Et].
    apply String.eqb_eq in Ed, Et. unfold key_of in Hk at 1. simpl in Hk.
    rewrite Ed, Et, Hx in Hk. apply post_key_inj in Hk. lia.
Qed.

Local Open Scope list_scope.

Section WatchFacts.
Variable state : ForumState.
Variable provider : provider_t.

Abbreviation process_due := (process_due state provider).
Abbreviation process_batch := (process_batch state provider).
Abbreviation run_tick := (run_tick state provider).
Abbreviation run_ticks := (run_ticks state provider).

(** One record: its key is marked unless an exception escapes, at most
    one call is made, under the record's key, and no reference is
    unbound. *)
Lemma process_due_spec d st st' s :
  process_due d st = (st', s) ->
  executed_posts st' =
    match s with
    | Continue => {[key_of d]} ∪ executed_posts st
    | Raised => executed_posts st
    end
  /\ (calls st' = calls st \/ exists c, calls st' = calls st ++ [(key_of d, c)])
  /\ (forall k, is_Some (post_refs st !! k) -> is_Some (post_refs st' !! k)).
Proof.
  destruct d as [[idx row] key]. unfold process_due, key_of. intros H.
  repeat case_match; simplify_eq; cbn [executed_posts calls post_refs mark
    record_call store_ref snd]; repeat split; eauto.
  all: intros k Hk; rewrite ?lookup_insert_is_Some'; eauto.
Qed.

Lemma process_batch_spec ds st st' s :
  process_batch ds st = (st', s) ->
  exists new,
    calls st' = calls st ++ new
    /\ (new.*1) `sublist_of` (key_of <$> ds)
    /\ executed_posts st ⊆ executed_posts st'
    /\ (s = Continue ->
        executed_posts st' = list_to_set (key_of <$> ds) ∪ executed_posts st)
    /\ (forall k, is_Some (post_refs st !! k) -> is_Some (post_refs st' !! k)).
Proof.
  revert st; induction ds as [|d ds IH]; intros st H; simpl in H.
  - simplify_eq. exists []. rewrite app_nil_r. repeat split; try done.
    intros _. simpl. by rewrite (left_id_L ∅ (∪)).
  - destruct (process_due d st) as [st1 s1] eqn:E.
    apply process_due_spec in E as (Hex & Hc & Hr).
    destruct s1.
    + destruct (IH _ H) as (new & Hn & Hs & Hsub & Hex' & Hr').
      destruct Hc as [Hc|[c Hc]].
      * exists new. rewrite Hn, Hc. repeat split; auto.
        -- rewrite fmap_cons. by apply sublist_cons.
        -- etrans; [|exact Hsub]. rewrite Hex. apply union_subseteq_r.
        -- intros Hs'. rewrite (Hex' Hs'), Hex, fmap_cons. simpl.
           by rewrite (assoc_L (∪)), (comm_L (∪) (list_to_set _) {[_]}).
      * exists ((key_of d, c) :: new). rewrite Hn, Hc, <- app_assoc.
        repeat split; auto.
        -- rewrite !fmap_cons. by apply sublist_skip.
        -- etrans; [|exact Hsub]. rewrite Hex. apply union_subseteq_r.
        -- intros Hs'. rewrite (Hex' Hs'), Hex, fmap_cons. simpl.
           by rewrite (assoc_L (∪)), (comm_L (∪) (list_to_set _) {[_]}).
    + simplify_eq. destruct Hc as [Hc|[c Hc]].
      * exists []. rewrite app_nil_r. repeat split; auto.
        -- apply sublist_nil_l.
        -- by rewrite Hex.
        -- done.
      * exists [(key_of d, c)]. repeat split; auto.
        -- rewrite !fmap_cons. apply sublist_skip, sublist_nil_l.
        -- by rewrite Hex.
        -- done.
Qed.

(** One tick: the calls it adds carry distinct keys, none of which was
    in the ledger before; they are in the ledger afterwards. *)
Lemma run_tick_spec t st st' s :
  (forall l, shuffle t l ≡ₚ l) ->
  run_tick t st = (st', s) ->
  exists new,
    calls st' = calls st ++ new
    /\ NoDup (new.*1)
    /\ (forall k, k ∈ new.*1 -> k ∉ executed_posts st)
    /\ executed_posts st ⊆ executed_posts st'
    /\ (s = Continue -> forall k, k ∈ new.*1 -> k ∈ executed_posts st')
    /\ (forall k, is_Some (post_refs st !! k) -> is_Some (post_refs st' !! k)).
Proof.
  intros Hp H. unfold run_tick in H.
  set (ds := due_posts (rows t) (current_date t) (current_time t)
                       (executed_posts st)) in *.
  assert (Hnd : NoDup (key_of <$> shuffle t ds)).
  { rewrite (Hp ds). apply due_from_NoDup. }
  assert (Hfresh : forall k, k ∈ key_of <$> shuffle t ds ->
                             k ∉ executed_posts st).
  { intros k Hk. rewrite (Hp ds) in Hk.
    apply list_elem_of_fmap in Hk as (x & -> & Hx).
    by apply due_from_elem in Hx as (_ & Hx & _). }
  assert (Hb : process_batch (shuffle t ds) st = (st', s) \/
               (st', s) = (st, Continue)).
  { destruct ds; [right|left]; done. }
  destruct Hb as [Hb|Hb].
  - apply process_batch_spec in Hb as (new & Hc & Hsub & Hex & Hex' & Hr).
    exists new. repeat split; auto.
    + by eapply sublist_NoDup.
    + intros k Hk. apply Hfresh. by eapply elem_of_sublist.
    + intros Hs k Hk. rewrite (Hex' Hs).
      apply elem_of_union_l, elem_of_list_to_set.
      by eapply elem_of_sublist.
  - simplify_eq. exists []. rewrite app_nil_r.
    repeat split; auto; try constructor.
    all: try (intros ? Hk; by apply elem_of_nil in Hk);
      try (intros ? ? Hk; by apply elem_of_nil in Hk); done.
Qed.

Lemma run_ticks_spec ts st st' s :
  shuffles_permute ts ->
  run_ticks ts st = (st', s) ->
  exists new,
    calls st' = calls st ++ new
    /\ NoDup (new.*1)
    /\ (forall k, k ∈ new.*1 -> k ∉ executed_posts st)
    /\ executed_posts st ⊆ executed_posts st'
    /\ (s = Continue -> forall k, k ∈ new.*1 -> k ∈ executed_posts st')
    /\ (forall k, is_Some (post_refs st !! k) -> is_Some (post_refs st' !! k)).
Proof.
  intros Hp; revert st; induction Hp as [|t ts Ht Hts IH]; intros st H;
    simpl in H.
  - simplify_eq. exists []. rewrite app_nil_r.
    repeat split; auto; try constructor.
    all: try (intros ? Hk; by apply elem_of_nil in Hk);
      try (intros ? ? Hk; by apply elem_of_nil in Hk); done.
  - destruct (run_tick t st) as [st1 s1] eqn:E.
    apply (run_tick_spec _ _ _ _ Ht) in E
      as (new1 & Hc1 & Hn1 & Hf1 & Hs1 & Hm1 & Hr1).
    destruct s1.
    + destruct (IH _ H) as (new2 & Hc2 & Hn2 & Hf2 & Hs2 & Hm2 & Hr2).
      exists (new1 ++ new2). rewrite Hc2, Hc1, <- app_assoc.
      repeat split; auto.
      * rewrite fmap_app. apply NoDup_app. repeat split; auto.
        intros k Hk1 Hk2. apply (Hf2 k Hk2). by apply Hm1.
      * intros k Hk. rewrite fmap_app in Hk.
        apply elem_of_app in Hk as [Hk|Hk]; [by apply Hf1|].
        intros Hin. apply (Hf2 k Hk). by apply Hs1.
      * by etrans.
      * intros Hs k Hk. rewrite fmap_app in Hk.
        apply elem_of_app in Hk as [Hk|Hk]; [|by apply Hm2].
        apply Hs2. by apply Hm1.
    + simplify_eq. exists new1. repeat split; auto.
Qed.

(** The reply index keeps its keys whatever the shuffles do. *)
Lemma run_ticks_refs ts st st' s k :
  run_ticks ts st = (st', s) ->
  is_Some (post_refs st !! k) -> is_Some (post_refs st' !! k).
Proof.
  revert st; induction ts as [|t ts IH]; intros st H Hk; simpl in H.
  - by simplify_eq.
  - destruct (run_tick t st) as [st1 s1] eqn:E.
    assert (Hk1 : is_Some (post_refs st1 !! k)).
    { unfold Main.run_tick in E.
      destruct (due_posts _ _ _ _); [by simplify_eq|].
      apply process_batch_spec in E as (_ & _ & _ & _ & _ & Hr). auto. }
    destruct s1; [eauto|by simplify_eq].
Qed.


(** C1.  In watch mode a key that is in the ledger is never published
    again: whatever the later ticks present (the same minute again, an
    edited schedule, any order of the batch), the calls they add do not
    carry that key.  Hence in every run every post key has at most one
    Publisher call. *)
Theorem watch_publishes_each_key_at_most_once :
  (forall ts st st' s key,
     shuffles_permute ts ->
     key ∈ executed_posts st ->
     run_ticks ts st = (st', s) ->
     exists new, calls st' = calls st ++ new /\ key ∉ new.*1)
  /\ (forall ts st' s,
       shuffles_permute ts ->
       run_watch state provider ts = (st', s) ->
       NoDup ((calls st').*1)).
Proof.
  split.
  - intros ts st st' s key Hp Hin H.
    destruct (run_ticks_spec ts st st' s Hp H)
      as (new & Hc & _ & Hf & _).
    exists new. split; [done|]. intros Hk. by apply (Hf key).
  - intros ts st' s Hp H. unfold run_watch in H.
    destruct (bots state).
    + simplify_eq. constructor.
    + destruct (run_ticks_spec ts _ st' s Hp H) as (new & -> & Hn & _).
      done.
Qed.








End WatchFacts.

(** *** Single-pass mode keeps its references too *)

Lemma process_row_refs state provider today row st st' s k :
  process_row state provider today row st = (st', s) ->
  is_Some (s_post_refs st !! k) -> is_Some (s_post_refs st' !! k).
Proof.
  unfold process_row. intros H Hk.
  repeat case_match; simplify_eq; cbn [s_post_refs]; try done.
  all: rewrite lookup_insert_is_Some'; eauto.
Qed.

Lemma process_rows_refs state provider today rows st st' s k :
  process_rows state provider today rows st = (st', s) ->
  is_Some (s_post_refs st !! k) -> is_Some (s_post_refs st' !! k).
Proof.
  revert st; induction rows as [|row rows IH]; intros st H Hk; simpl in H.
  - by simplify_eq.
  - destruct (process_row state provider today row st) as [st1 s1] eqn:E.
    pose proof (process_row_refs _ _ _ _ _ _ _ _ E Hk) as Hk1.
    destruct s1; [eauto|by simplify_eq].
Qed.

(** C3 (fails on the code).  Watch mode registers a thread under the index
    of its row in the schedule file, while a comment looks its thread up
    under the first segment of its reply_to.  On [schedule], run in order:
    the thread of day 1 is registered under "0" and row "1" (reply_to "0")
    finds it; row "1.1" (reply_to "1") looks up "1", finds nothing and is
    skipped; the thread of day 2 is registered under "3", and row "1" of
    day 2 looks up "0", where it finds the post of day 1's comment, and
    replies into day 1. *)
Theorem thread_reference_schemes_disagree :
  calls (run_watch forum publisher two_days).1 =
    [("0:2025-03-01:10:00",
      submit_thread "b0" (Some "town") "Neighborhood" "What do you think?");
     ("1:2025-03-01:10:05", submit_reply "b1" "T0" "I like it" None);
     ("3:2025-03-02:10:00",
      submit_thread "b0" (Some "town") "Day two" "And now?");
     ("4:2025-03-02:10:05", submit_reply "b1" "P1" "Still fine" None)]
  /\ (run_watch forum publisher two_days).2 = Continue
  /\ "2:2025-03-01:10:10" ∈ executed_posts (run_watch forum publisher two_days).1
  /\ refs_after (take 3 two_days) = [("0", "P1")]
  /\ thread_ref_of (get row_1_1 "reply_to" "") = "1"
  /\ refs_after (take 4 two_days) = [("3", "T2"); ("0", "P1")]
  /\ thread_ref_of (get row_2_1 "reply_to" "") = "0".
Proof.
  repeat split; vm_compute; reflexivity.
Qed.

(** C4 (fails on the code).  The post of a comment is stored under the
    comment's reply_to, not under its own id.  After the thread and the
    comment with row id "1" (reply_to "0", post [P1]) of [schedule] are
    published, nothing is bound to "1", and "0", which held the thread
    [T0], holds [P1]; so in both modes. *)
Theorem comment_stored_under_parent_reference :
  let single := (run_schedule forum publisher day1 [row_thread1; row_1]).1 in
  let watch := (run_watch forum publisher (take 2 two_days)).1 in
  s_calls single =
    [submit_thread "b0" (Some "town") "Neighborhood" "What do you think?";
     submit_reply "b1" "T0" "I like it" None]
  /\ s_post_refs single !! "1" = None
  /\ s_post_refs single !! "0" = Some "P1"
  /\ s_post_refs (run_schedule forum publisher day1 [row_thread1]).1 !! "0"
     = Some "T0"
  /\ calls watch =
     [("0:2025-03-01:10:00",
       submit_thread "b0" (Some "town") "Neighborhood" "What do you think?");
      ("1:2025-03-01:10:05", submit_reply "b1" "T0" "I like it" None)]
  /\ post_refs watch !! "1" = None
  /\ post_refs watch !! "0" = Some "P1".
Proof. repeat split; vm_compute; reflexivity. Qed.

(** C5 is not true as stated: a bound reference can be rebound.  The row
    moved by the edit is published again under its new key and the
    reference "0", bound to [T0], is bound to [T1]. *)
Lemma reply_index_entry_rebound :
  shuffles_permute [before_edit; after_edit]
  /\ post_refs (run_watch forum publisher [before_edit]).1 !! "0" = Some "T0"
  /\ post_refs (run_watch forum publisher [before_edit; after_edit]).1 !! "0"
     = Some "T1"
  /\ "T0" <> "T1".
Proof.
  split; [by repeat (apply Forall_cons_2; [done|]); apply Forall_nil_2|].
  repeat split; try (vm_compute; reflexivity). discriminate.
Qed.

(** C5, as the code has it.  Both loops start from an empty reply index
    and never unbind a reference: a key that is bound stays bound through
    every tick of watch mode and every row of the single pass. *)
Theorem reply_index_keeps_its_keys state provider :
  post_refs initial = ∅
  /\ (forall ts st st' s k,
       run_ticks state provider ts st = (st', s) ->
       is_Some (post_refs st !! k) -> is_Some (post_refs st' !! k))
  /\ (forall today rows st st' s k,
       process_rows state provider today rows st = (st', s) ->
       is_Some (s_post_refs st !! k) -> is_Some (s_post_refs st' !! k)).
Proof.
  split; [done|]. split.
  - intros. by eapply run_ticks_refs.
  - intros. by eapply process_rows_refs.
Qed.

Lemma reply_index_keeps_its_keys_witness :
  is_Some (post_refs after_first_tick !! "0")
  /\ is_Some (post_refs (run_ticks forum publisher (drop 1 two_days)
                                   after_first_tick).1 !! "0").
Proof.
  assert (H : is_Some (post_refs after_first_tick !! "0"))
    by (exists "T0"; vm_compute; reflexivity).
  split; [exact H|].
  exact (proj1 (proj2 (reply_index_keeps_its_keys forum publisher))
           (drop 1 two_days) after_first_tick _ _ "0"
           (surjective_pairing _) H).
Defined.

Lemma at_minute_permutes ts :
  Forall (fun t => exists d m, t = at_minute d m) ts -> shuffles_permute ts.
Proof.
  induction 1 as [|t ts (d & m & ->) _ IH]; [apply Forall_nil_2|].
  apply Forall_cons_2; [done|exact IH].
Defined.

Lemma realigned_permutes : shuffles_permute realigned.
Proof.
  apply at_minute_permutes.
  repeat (apply Forall_cons_2; [by eexists _, _|]). apply Forall_nil_2.
Defined.

Lemma watch_publishes_each_key_at_most_once_witness :
  shuffles_permute realigned
  /\ (calls (run_watch forum publisher realigned).1).*1
     = ["0:2025-03-01:10:00"; "1:2025-03-01:10:05"]
  /\ NoDup ((calls (run_watch forum publisher realigned).1).*1).
Proof.
  split; [exact realigned_permutes|]. split; [vm_compute; reflexivity|].
  exact (proj2 (watch_publishes_each_key_at_most_once forum publisher)
           realigned _ _ realigned_permutes (surjective_pairing _)).
Defined.








End MainFacts.

(** * Further properties of the outline parser *)

Module ParserFacts.
Import Re Convert ConvertSpec ConvertFacts ParserSpec.

(** Only a day header whose date does not exist makes an iteration raise. *)
Lemma iteration_ok start c st l rest :
  day_in_range start l ->
  exists st' e rest', iteration start c st l rest = Ok (st', e, rest').
Proof.
  unfold day_in_range, iteration. intros H.
  destruct (negb (Py.truthy (Py.strip l))); [by eauto|].
  destruct (rmatch day_re (Py.strip l)) as [m|].
  { destruct H as (day & d & -> & ->). by eauto. }
  repeat case_match; by eauto.
Qed.

Lemma trace_loop_ok fuel start c st lines :
  length lines <= fuel ->
  Forall (day_in_range start) lines ->
  exists es, trace_loop fuel start c st lines = Ok es
             /\ length (kept es) <= length lines.
Proof.
  revert st lines; induction fuel as [|fuel IH]; intros st lines Hlen Hr.
  - destruct lines; simpl in *; [by exists []|lia].
  - destruct lines as [|l rest]; simpl; [by exists []|].
    apply Forall_cons in Hr as [Hl Hr].
    destruct (iteration_ok start c st l rest Hl) as (st' & e & rest' & E).
    rewrite E. destruct (iteration_suffix _ _ _ _ _ _ _ _ E) as [taken ->].
    apply Forall_app in Hr as [_ Hr]. simpl in Hlen.
    rewrite length_app in Hlen.
    assert (Hlen' : length rest' <= fuel) by lia.
    destruct (IH st' rest' Hlen' Hr) as (es & -> & Hk).
    exists (e :: es). split; [done|]. rewrite length_app.
    destruct e as [| | | |r [|]]; simpl; lia.
Qed.

(** X1.  The parser is lenient and terminates: whatever the lines of the
    outline are, if every day header shows a day number of at most 4300
    digits whose date exists, the loop ends and returns rows, at most one
    per line. *)
Theorem parse_returns_unless_day_overflows text start c :
  Forall (day_in_range start) (Py.split Py.newline (Py.strip text)) ->
  exists rows,
    parse_schedule_text text start c = Ok rows
    /\ length rows <= length (Py.split Py.newline (Py.strip text)).
Proof.
  intros Hr. rewrite parse_schedule_text_trace. unfold parse_trace.
  destruct (trace_loop_ok (length (Py.split Py.newline (Py.strip text)))
              start c (mkPState 0 start "" 0) _ (Nat.le_refl _) Hr)
    as (es & -> & Hk).
  by exists (kept es).
Qed.

Lemma lenient_outline_in_range :
  Forall (day_in_range 100) (Py.split Py.newline (Py.strip lenient_outline)).
Proof.
  let l := eval vm_compute in (Py.split Py.newline (Py.strip lenient_outline))
  in change (Forall (day_in_range 100) l).
  repeat (apply List.Forall_cons;
          [unfold day_in_range;
           match goal with
           | |- match ?o with _ => _ end =>
               let v := eval vm_compute in o in change o with v; cbv iota
           end;
           first [exact I
                 | exists 2%Z, 101%Z; split; vm_compute; reflexivity]|]).
  apply List.Forall_nil.
Defined.

Lemma parse_returns_unless_day_overflows_witness :
  Forall (day_in_range 100) (Py.split Py.newline (Py.strip lenient_outline))
  /\ exists rows, parse_schedule_text lenient_outline 100 "c" = Ok rows
                  /\ length rows <= 7.
Proof.
  split; [exact lenient_outline_in_range|].
  exact (parse_returns_unless_day_overflows lenient_outline 100 "c"
           lenient_outline_in_range).
Defined.

(** *** Which iteration built a row *)

Lemma trace_loop_head fuel start c st lines e es :
  trace_loop fuel start c st lines = Ok (e :: es) ->
  exists fuel' st' l rest rest',
    iteration start c st l rest = Ok (st', e, rest')
    /\ trace_loop fuel' start c st' rest' = Ok es.
Proof.
  destruct fuel as [|fuel]; destruct lines as [|l rest]; try done.
  simpl. destruct (iteration start c st l rest) as [[[st' e'] rest']|] eqn:E;
    [|done].
  destruct (trace_loop fuel start c st' rest') as [es'|] eqn:T; [|done].
  intros [= <- <-]. by exists fuel, st', l, rest, rest'.
Qed.

Lemma trace_loop_app fuel start c st lines pre es :
  trace_loop fuel start c st lines = Ok (pre ++ es)%list ->
  exists fuel' st' lines', trace_loop fuel' start c st' lines' = Ok es.
Proof.
  revert fuel st lines; induction pre as [|e pre IH]; intros fuel st lines H.
  - by eauto.
  - apply trace_loop_head in H as (fuel' & st' & l & rest & rest' & _ & H).
    eauto.
Qed.

Lemma trace_loop_elem fuel start c st lines es r b :
  trace_loop fuel start c st lines = Ok es ->
  RowLine r b ∈ es ->
  exists st0 l rest st' rest',
    iteration start c st0 l rest = Ok (st', RowLine r b, rest').
Proof.
  intros H Hin. apply list_elem_of_split in Hin as (pre & post & ->).
  apply trace_loop_app in H as (fuel' & st' & lines' & H).
  apply trace_loop_head in H as (? & st'' & l & rest & rest' & H & _).
  by eauto 6.
Qed.

(** *** [str.strip] *)

Lemma rstrip_rstrip s : Py.rstrip (Py.rstrip s) = Py.rstrip s.
Proof.
  induction s as [|a s IH]; [done|]. simpl.
  destruct (Py.rstrip s) as [|b t] eqn:E.
  - destruct (Py.isspace a) eqn:Ea; [done|]. simpl. by rewrite Ea.
  - remember (String b t) as u eqn:Hu. simpl. rewrite IH. by subst u.
Qed.

Lemma lstrip_starts_clean s : starts_clean (Py.lstrip s).
Proof.
  induction s as [|a s IH]; [done|]. simpl.
  by destruct (Py.isspace a) eqn:E.
Qed.

Lemma rstrip_starts_clean s : starts_clean s -> starts_clean (Py.rstrip s).
Proof.
  destruct s as [|a s]; [done|]. simpl. intros Ha.
  destruct (Py.rstrip s); [by rewrite Ha|done].
Qed.

Lemma lstrip_clean s : starts_clean s -> Py.lstrip s = s.
Proof. destruct s as [|a s]; [done|]. simpl. by intros ->. Qed.

(** Trimming a trimmed string changes nothing. *)
Lemma strip_strip s : Py.strip (Py.strip s) = Py.strip s.
Proof.
  unfold Py.strip.
  rewrite (lstrip_clean (Py.rstrip (Py.lstrip s))).
  - apply rstrip_rstrip.
  - apply rstrip_starts_clean, lstrip_starts_clean.
Qed.

(** What the row branch of an iteration puts into the fields that do not
    depend on the row id. *)
Lemma iteration_row start c st l rest st' r b rest' :
  iteration start c st l rest = Ok (st', RowLine r b, rest') ->
  datetime r = current_date st
  /\ community r = c
  /\ title r = (if String.eqb (kind r) "self" then current_title st else "")
  /\ Py.strip (account r) = account r
  /\ Py.strip (body r) = body r
  /\ current_date st' = current_date st
  /\ current_title st' = current_title st.
Proof.
  intros H. split_iteration H;
    cbn [datetime community title kind account body current_date current_title];
    repeat split; try done; try apply strip_strip.
  all: cbn [kind] in *; congruence.
Qed.

(** X2.  In the output only thread-creating rows carry a title, every row
    carries the community slug that the parser was given, and account and
    body are trimmed of white space at both ends. *)
Theorem output_rows_are_clean text start c rows :
  parse_schedule_text text start c = Ok rows ->
  forall r, r ∈ rows ->
    community r = c
    /\ (kind r = "comment" -> title r = "")
    /\ Py.strip (account r) = account r
    /\ Py.strip (body r) = body r.
Proof.
  intros H r Hin. rewrite parse_schedule_text_trace in H.
  destruct (parse_trace text start c) as [es|] eqn:Ht; [|done].
  injection H as <-. apply elem_of_kept in Hin.
  destruct (trace_loop_elem _ _ _ _ _ _ _ _ Ht Hin)
    as (st0 & l & rest & st' & rest' & Hi).
  apply iteration_row in Hi as (_ & Hc & Hti & Ha & Hb & _).
  repeat split; try done. intros Hk. by rewrite Hti, Hk.
Qed.

Lemma output_rows_are_clean_witness :
  parse_schedule_text day_outline 7 "c" = Ok day_rows
  /\ forall r, r ∈ day_rows ->
       community r = "c"
       /\ (kind r = "comment" -> title r = "")
       /\ Py.strip (account r) = account r
       /\ Py.strip (body r) = body r.
Proof.
  assert (H : parse_schedule_text day_outline 7 "c" = Ok day_rows)
    by (vm_compute; reflexivity).
  split; [exact H|].
  exact (output_rows_are_clean day_outline 7 "c" day_rows H).
Defined.

(** *** [str.split] and [str.join] *)

Lemma split_nonempty c s : Py.split c s <> [].
Proof.
  destruct s as [|a s]; [done|]. simpl.
  destruct (Ascii.eqb a c); [done|]. by destruct (Py.split c s).
Qed.

(** Joining what was split gives the string back. *)
Lemma join_split c s : Py.join (String c "") (Py.split c s) = s.
Proof.
  induction s as [|a s IH]; [done|]. simpl.
  pose proof (split_nonempty c s) as Hne.
  destruct (Ascii.eqb_spec a c) as [->|Hac].
  - destruct (Py.split c s) as [|w ws]; [done|].
    cbn [Py.join]. simpl. by rewrite <- IH.
  - destruct (Py.split c s) as [|w ws]; [done|].
    rewrite <- IH. by destruct ws.
Qed.

Lemma split_free c s : free_of c s = true -> Py.split c s = [s].
Proof.
  induction s as [|a s IH]; [done|]. simpl. intros H.
  apply andb_prop in H as [Ha Hs]. apply negb_true_iff in Ha.
  by rewrite Ha, (IH Hs).
Qed.

Lemma split_segments_free c s :
  Forall (fun w => free_of c w = true) (Py.split c s).
Proof.
  induction s as [|a s IH]; [by repeat constructor|]. simpl.
  destruct (Ascii.eqb a c) eqn:E; [by constructor|].
  destruct (Py.split c s) as [|w ws]; [by repeat constructor; simpl; rewrite E|].
  apply Forall_cons in IH as [Hw Hws]. constructor; [|done].
  simpl. by rewrite E, Hw.
Qed.

Lemma split_single c s : length (Py.split c s) = 1 -> free_of c s = true.
Proof.
  intros H. pose proof (split_segments_free c s) as Hf.
  pose proof (join_split c s) as Hj.
  destruct (Py.split c s) as [|w [|]]; try done.
  simpl in Hj. subst w. by apply Forall_cons in Hf as [Hf _].
Qed.

Lemma append_assoc (s t u : string) : (s ++ t) ++ u = s ++ t ++ u.
Proof.
  induction s as [|a s IH]; [done|].
  change (String a ((s ++ t) ++ u) = String a (s ++ t ++ u)). by rewrite IH.
Qed.

Lemma join_snoc sep l x :
  l <> [] -> Py.join sep (l ++ [x]) = Py.join sep l ++ sep ++ x.
Proof.
  induction l as [|w l IH]; [done|]. intros _.
  destruct l as [|w' l]; [done|].
  change (Py.join sep ((w :: w' :: l) ++ [x]))
    with (w ++ sep ++ Py.join sep ((w' :: l) ++ [x])).
  rewrite IH by done.
  change (Py.join sep (w :: w' :: l)) with (w ++ sep ++ Py.join sep (w' :: l)).
  by rewrite !append_assoc.
Qed.

(** The parent id of a nested id is the id without its last segment. *)
Lemma kind_and_reply_to_parent row_id :
  (row_id = "0" /\ kind_and_reply_to row_id = ("self", ""))
  \/ (row_id <> "0" /\ free_of "." row_id = true
      /\ kind_and_reply_to row_id = ("comment", "0"))
  \/ (exists parent last,
        kind_and_reply_to row_id = ("comment", parent)
        /\ free_of "." last = true
        /\ row_id = parent ++ "." ++ last).
Proof.
  unfold kind_and_reply_to.
  destruct (String.eqb_spec row_id "0") as [->|Hne]; [by left|right].
  destruct (length (Py.split "." row_id) =? 1)%nat eqn:E.
  - left. apply Nat.eqb_eq, split_single in E. done.
  - right. apply Nat.eqb_neq in E.
    pose proof (split_nonempty "." row_id) as Hn.
    pose proof (split_segments_free "." row_id) as Hf.
    pose proof (join_split "." row_id) as Hj.
    destruct (exists_last Hn) as (parts & last & Hp). rewrite Hp in *.
    exists (Py.join "." parts), last. rewrite removelast_last.
    split; [done|]. split.
    + by apply Forall_app in Hf as [_ [Hf _]%Forall_cons].
    + rewrite <- Hj. apply join_snoc. intros ->. by simpl in E.
Qed.

(** X3.  In the output a thread-creating row has id "0" and replies to
    nothing, a comment with a one-segment id replies to "0", and a comment
    with a nested id replies to the id that is left when the last segment
    and its dot are removed. *)
Theorem output_reply_to_is_parent text start c rows :
  parse_schedule_text text start c = Ok rows ->
  forall r, r ∈ rows ->
    (row_id r = "0" /\ kind r = "self" /\ reply_to r = "")
    \/ (row_id r <> "0" /\ free_of "." (row_id r) = true
        /\ kind r = "comment" /\ reply_to r = "0")
    \/ (kind r = "comment"
        /\ exists last, free_of "." last = true
                        /\ row_id r = reply_to r ++ "." ++ last).
Proof.
  intros H r Hin. rewrite parse_schedule_text_trace in H.
  destruct (parse_trace text start c) as [es|] eqn:Ht; [|done].
  injection H as <-. apply elem_of_kept in Hin.
  apply parse_trace_well_timed in Ht.
  destruct (well_timed_elem _ _ _ _ Ht Hin) as (off & _ & Hk & Hr & _).
  rewrite Hk, Hr.
  destruct (kind_and_reply_to_parent (row_id r))
    as [[H0 ->]|[(Hne & Hf & ->)|(parent & last & -> & Hl & Hrow)]].
  - by left.
  - right; left. done.
  - right; right. split; [done|]. by exists last.
Qed.

Lemma output_reply_to_is_parent_witness :
  parse_schedule_text day_outline 7 "c" = Ok day_rows
  /\ forall r, r ∈ day_rows ->
       (row_id r = "0" /\ kind r = "self" /\ reply_to r = "")
       \/ (row_id r <> "0" /\ free_of "." (row_id r) = true
           /\ kind r = "comment" /\ reply_to r = "0")
       \/ (kind r = "comment"
           /\ exists last, free_of "." last = true
                           /\ row_id r = reply_to r ++ "." ++ last).
Proof.
  assert (H : parse_schedule_text day_outline 7 "c" = Ok day_rows)
    by (vm_compute; reflexivity).
  split; [exact H|].
  exact (output_reply_to_is_parent day_outline 7 "c" day_rows H).
Defined.

(** *** Dates and titles *)

Lemma iteration_state start c st l rest st' e rest' :
  iteration start c st l rest = Ok (st', e, rest') ->
  match e with
  | DayHeader =>
      (1 <= current_date st' <= 3652059)%Z
      /\ current_date st' = (start + (current_day st' - 1))%Z
  | _ => current_date st' = current_date st
         /\ current_title st' = current_title st
  end.
Proof.
  intros H. split_iteration H; cbn [current_date current_title current_day];
    try done.
  unfold add_days in *. repeat case_match; simplify_eq. split; [lia|done].
Qed.

Lemma trace_loop_prefix_dated fuel start c st lines pre es :
  trace_loop fuel start c st lines = Ok (pre ++ es)%list ->
  no_day_header pre = true ->
  Forall (dated (current_date st) (current_title st)) (recognized pre).
Proof.
  revert fuel st lines; induction pre as [|e pre IH]; intros fuel st lines H Hn.
  - constructor.
  - simpl in Hn. apply andb_prop in Hn as [He Hn].
    apply trace_loop_head in H as (fuel' & st' & l & rest & rest' & Hi & H).
    specialize (IH _ _ _ H Hn). apply iteration_state in Hi as Hs.
    destruct e as [| | | |r b]; try discriminate; cbn [recognized];
      destruct Hs as [Hd' Ht']; rewrite Hd', Ht' in IH; try done.
    constructor; [|done].
    apply iteration_row in Hi as (Hd & _ & Ht & _). by split.
Qed.

(** What the day header branch reads off the line. *)
Lemma iteration_header start c st l rest st' rest' :
  iteration start c st l rest = Ok (st', DayHeader, rest') ->
  exists day,
    header_of l = Some (day, current_title st')
    /\ current_date st' = (start + (day - 1))%Z
    /\ (1 <= current_date st' <= 3652059)%Z.
Proof.
  intros H. unfold header_of. split_iteration H.
  cbn [current_title current_date].
  eexists. split; [done|].
  unfold add_days in *. repeat case_match; simplify_eq. split; [done|lia].
Qed.

(** X4.  The rows that follow a day header, up to the next one, all carry
    one date: the start date plus the day number that the header line
    shows, minus one, a date that exists; the threads among them carry the
    title that the header line shows.  The header line is the line of the
    text at which the iteration stood.  The rows before the first day
    header carry the start date itself, and no title. *)
Theorem rows_of_a_day_share_the_date text start c hs :
  parse_located text start c = Ok hs ->
  parse_schedule_text text start c = Ok (kept hs.*2)
  /\ (forall pre post,
        hs = (pre ++ post)%list -> no_day_header pre.*2 = true ->
        Forall (fun r => datetime r = start /\ title r = "")
               (recognized pre.*2))
  /\ (forall pre l rest seg post,
        hs = (pre ++ (l :: rest, DayHeader) :: seg ++ post)%list ->
        no_day_header seg.*2 = true ->
        exists before day t,
          Py.split Py.newline (Py.strip text) = (before ++ l :: rest)%list
          /\ header_of l = Some (day, t)
          /\ (1 <= start + (day - 1) <= 3652059)%Z
          /\ Forall (fun r => datetime r = (start + (day - 1))%Z
                              /\ title r = (if String.eqb (kind r) "self"
                                            then t else ""))
                    (recognized seg.*2)).
Proof.
  intros Hl.
  assert (Ht : parse_trace text start c = Ok hs.*2)
    by (by rewrite parse_located_trace, Hl).
  split; [by rewrite parse_schedule_text_trace, Ht|]. split.
  - intros pre post -> Hn. rewrite fmap_app in Ht.
    pose proof (trace_loop_prefix_dated _ _ _ _ _ _ _ Ht Hn) as Hd.
    eapply Forall_impl; [exact Hd|]. intros r [Hr Hti]. simpl in *.
    split; [done|]. rewrite Hti. by destruct (kind r =? "self").
  - intros pre l rest seg post -> Hn.
    destruct (located_loop_suffix _ _ _ _ _ _ (l :: rest) DayHeader Hl)
      as [before Hb].
    { apply elem_of_app. right. apply list_elem_of_here. }
    apply located_loop_split in Hl
      as (fuel' & st0 & l0 & rest0 & st' & rest' & [= <- <-] & Hi & Hl).
    destruct (iteration_header _ _ _ _ _ _ _ Hi) as (day & Hh & Hd & Hr).
    exists before, day, (current_title st').
    split; [done|]. split; [done|]. split; [by rewrite <- Hd|].
    rewrite <- Hd.
    assert (Ht' : trace_loop fuel' start c st' rest' = Ok (seg.*2 ++ post.*2)%list).
    { rewrite located_loop_trace, Hl. by rewrite fmap_app. }
    exact (trace_loop_prefix_dated _ _ _ _ _ _ _ Ht' Hn).
Qed.

Lemma rows_of_a_day_share_the_date_witness :
  parse_located lenient_outline 100 "c"
    = Ok (match parse_located lenient_outline 100 "c" with
          | Ok hs => hs | Err _ => [] end)
  /\ parse_schedule_text lenient_outline 100 "c"
     = Ok [mkRow 100 "10:00" "Ann" "" "early just some words" "comment" "0" "c" "9";
           mkRow 101 "10:00" "Researchers" "Second" "Hi" "self" "" "c" "0";
           mkRow 101 "10:05" "Ben" "" "deep" "comment" "2" "c" "2.1"].
Proof.
  assert (H : parse_located lenient_outline 100 "c"
              = Ok (match parse_located lenient_outline 100 "c" with
                    | Ok hs => hs | Err _ => [] end))
    by (vm_compute; reflexivity).
  split; [exact H|].
  etrans;
    [exact (proj1 (rows_of_a_day_share_the_date lenient_outline 100 "c" _ H))|].
  vm_compute. reflexivity.
Defined.

(** *** Decimal renderings *)

Lemma pretty_N_char_value d :
  (d < 10)%N ->
  Z.of_nat (nat_of_ascii (pretty_N_char d) - 48) = Z.of_N d
  /\ Py.isdigit (pretty_N_char d) = true.
Proof.
  intros H.
  assert (d = 0 \/ d = 1 \/ d = 2 \/ d = 3 \/ d = 4 \/ d = 5 \/ d = 6
          \/ d = 7 \/ d = 8 \/ d = 9)%N as Hd by lia.
  repeat (destruct Hd as [->|Hd]; [by vm_compute|]). by subst.
Qed.

Lemma pretty_N_go_value x s acc :
  exists k : Z, (0 <= k)%Z /\
    digits_value acc (pretty_N_go x s)
    = digits_value (acc * 10 ^ k + Z.of_N x)%Z s.
Proof.
  revert s acc. induction (N.lt_wf_0 x) as [x _ IH]; intros s acc.
  assert (x = 0 \/ 0 < x)%N as [->|Hx] by lia.
  - exists 0%Z. split; [done|]. rewrite pretty_N_go_0. f_equal. lia.
  - rewrite pretty_N_go_step by done.
    destruct (IH (x `div` 10)%N (N.div_lt x 10 Hx eq_refl)
                 (String (pretty_N_char (x `mod` 10)) s) acc) as (k & Hk & ->).
    exists (k + 1)%Z. split; [lia|].
    unfold digits_value at 1. cbn [list_ascii_of_string fold_left].
    fold (digits_value
            (10 * (acc * 10 ^ k + Z.of_N (x `div` 10))
             + Z.of_nat (nat_of_ascii (pretty_N_char (x `mod` 10)) - 48))%Z s).
    f_equal.
    destruct (pretty_N_char_value (x `mod` 10)%N) as [-> _].
    { by apply N.mod_lt. }
    rewrite Z.pow_add_r, Z.pow_1_r by lia.
    rewrite (N.div_mod x 10) at 3 by done. lia.
Qed.

(** [int(str(n)) = n] *)
Lemma int_of_digits_pretty (n : nat) :
  Py.int_of_digits (pretty n) = Z.of_nat n.
Proof.
  unfold pretty, pretty_nat, pretty, pretty_N.
  destruct (decide (N.of_nat n = 0%N)) as [H|H].
  - assert (n = 0) as -> by lia. done.
  - destruct (pretty_N_go_value (N.of_nat n) "" 0) as (k & _ & Hk).
    unfold digits_value in Hk. unfold Py.int_of_digits. rewrite Hk.
    simpl. lia.
Qed.

(** [int(f"{n:02d}") = n] *)
Lemma int_of_digits_fmt02 (n : nat) : Py.int_of_digits (Py.fmt02 n) = Z.of_nat n.
Proof.
  unfold Py.fmt02. destruct (n <? 10)%nat; [|apply int_of_digits_pretty].
  rewrite <- int_of_digits_pretty. done.
Qed.

Lemma fmt02_inj a b : Py.fmt02 a = Py.fmt02 b -> a = b.
Proof.
  intros H. apply (f_equal Py.int_of_digits) in H.
  rewrite !int_of_digits_fmt02 in H. lia.
Qed.

Lemma pretty_N_go_digits x s :
  all_digits s = true -> all_digits (pretty_N_go x s) = true.
Proof.
  revert s. induction (N.lt_wf_0 x) as [x _ IH]; intros s Hs.
  assert (x = 0 \/ 0 < x)%N as [->|Hx] by lia; [done|].
  rewrite pretty_N_go_step by done. apply IH; [by apply N.div_lt|].
  simpl. rewrite Hs.
  destruct (pretty_N_char_value (x `mod` 10)%N) as [_ ->]; [|done].
  by apply N.mod_lt.
Qed.

Lemma fmt02_digits n : all_digits (Py.fmt02 n) = true.
Proof.
  assert (Hp : all_digits (pretty n) = true).
  { unfold pretty, pretty_nat, pretty, pretty_N.
    destruct (decide _); [done|]. by apply pretty_N_go_digits. }
  unfold Py.fmt02. destruct (n <? 10)%nat; [|done].
  change (all_digits (String "0" (pretty n)) = true). simpl. exact Hp.
Qed.

Lemma digits_free_of_colon s : all_digits s = true -> free_of ":" s = true.
Proof.
  induction s as [|a s IH]; [done|]. simpl. intros H.
  apply andb_prop in H as [Ha Hs]. rewrite (IH Hs), andb_true_r.
  destruct (Ascii.eqb_spec a ":") as [->|]; [by vm_compute in Ha|done].
Qed.

(** Two strings with one separator each and equal as a whole have equal
    parts. *)
Lemma separator_split c s1 s2 t1 t2 :
  free_of c s1 = true -> free_of c s2 = true ->
  s1 ++ String c t1 = s2 ++ String c t2 -> s1 = s2 /\ t1 = t2.
Proof.
  revert s2; induction s1 as [|a s1 IH]; intros [|b s2] H1 H2 H;
    simpl in H1, H2.
  - by injection H as ->.
  - injection H as -> _. by rewrite Ascii.eqb_refl in H2.
  - injection H as -> _. by rewrite Ascii.eqb_refl in H1.
  - injection H as -> H.
    apply andb_prop in H1 as [_ H1]. apply andb_prop in H2 as [_ H2].
    destruct (IH s2 H1 H2 H) as [-> ->]. done.
Qed.

(** The clock reading determines hour and minute. *)
Lemma clock_time_inj h m h' m' :
  clock_time h m = clock_time h' m' -> h = h' /\ m = m'.
Proof.
  unfold clock_time. intros H.
  apply separator_split in H as [Hh Hm];
    try (apply digits_free_of_colon, fmt02_digits).
  split; by apply fmt02_inj.
Qed.

Lemma time_str_clock_time off :
  time_str off = clock_time (10 + off / 60) (off mod 60).
Proof. done. Qed.

Lemma time_str_inj a b : time_str a = time_str b -> a = b.
Proof.
  rewrite !time_str_clock_time. intros [Hh Hm]%clock_time_inj.
  rewrite (Nat.div_mod_eq a 60), (Nat.div_mod_eq b 60). lia.
Qed.

Lemma imap_index {A B} (f : nat -> B) (l : list A) :
  imap (fun i _ => f i) l = f <$> seq 0 (length l).
Proof.
  revert f; induction l as [|x l IH]; intros f; [done|].
  cbn [imap length seq fmap list_fmap]. f_equal.
  rewrite <- fmap_S_seq, <- list_fmap_compose. apply (IH (f ∘ S)).
Qed.

(** X5.  Between two day headers no two recognized rows get the same
    time: in a stretch of the run without a day header the times of the
    rows are pairwise distinct. *)
Theorem times_within_a_day_are_distinct text start c es pre seg post :
  parse_trace text start c = Ok es ->
  es = (pre ++ seg ++ post)%list ->
  no_day_header seg = true ->
  NoDup (map time (recognized seg)).
Proof.
  intros Ht -> Hn. apply parse_trace_well_timed in Ht.
  destruct seg as [|e seg]; [constructor|].
  change (pre ++ (e :: seg) ++ post)%list
    with (pre ++ e :: (seg ++ post))%list in Ht.
  apply (well_timed_split 0) in Ht.
  destruct (well_timed_segment _ (e :: seg) post Hn Ht) as [_ ->].
  rewrite (imap_index (fun i => time_str (5 * position_from 0 pre + 5 * i))).
  apply NoDup_fmap_2_strong; [|apply NoDup_seq].
  intros i j _ _ H. apply time_str_inj in H. lia.
Qed.

Lemma times_within_a_day_are_distinct_witness :
  parse_trace day_outline 7 "c" = Ok day_trace
  /\ NoDup (map time (recognized day_segment)).
Proof.
  assert (H : parse_trace day_outline 7 "c" = Ok day_trace)
    by (vm_compute; reflexivity).
  split; [exact H|].
  exact (times_within_a_day_are_distinct day_outline 7 "c" day_trace
           [DayHeader] day_segment [] H eq_refl eq_refl).
Defined.

(** X6.  The hour of a time is not wrapped at 24: a row that is 840
    minutes or more after 10:00 (the 169th row of a day and the rows
    after it) gets a time that no clock shows. *)
Theorem late_rows_get_no_clock_time off h m :
  840 <= off -> h < 24 ->
  time_str off <> clock_time h m.
Proof.
  intros Hoff Hh. rewrite time_str_clock_time. intros [H _]%clock_time_inj.
  assert (14 <= off / 60) by (apply Nat.div_le_lower_bound; lia). lia.
Qed.

Lemma late_rows_get_no_clock_time_witness :
  time_str (5 * 168) = "24:00" /\ time_str (5 * 168) <> clock_time 23 55.
Proof.
  split; [vm_compute; reflexivity|].
  exact (late_rows_get_no_clock_time (5 * 168) 23 55
           ltac:(vm_compute; lia) ltac:(lia)).
Defined.

End ParserFacts.

(** * Further properties of the dispatch loops *)

Module SchedulerFacts.
Import Main MainSpec MainFacts SchedulerSpec.
Local Open Scope list_scope.

(** *** The single pass *)

Lemma process_row_other_day state provider today row st :
  is_today today row = false ->
  process_row state provider today row st = (st, Continue).
Proof. unfold process_row, is_today. by intros ->. Qed.

Lemma process_row_calls state provider today row st st' s :
  process_row state provider today row st = (st', s) ->
  s_calls st' = s_calls st \/ exists c, s_calls st' = s_calls st ++ [c].
Proof.
  unfold process_row. intros H.
  repeat case_match; simplify_eq; cbn [s_calls]; eauto.
Qed.

Lemma process_rows_filter state provider today rows st :
  process_rows state provider today rows st
  = process_rows state provider today (List.filter (is_today today) rows) st.
Proof.
  revert st; induction rows as [|row rows IH]; intros st; [done|].
  cbn [List.filter]. destruct (is_today today row) eqn:E.
  - cbn [process_rows].
    destruct (process_row state provider today row st) as [st' []]; auto.
  - cbn [process_rows]. rewrite process_row_other_day by done. apply IH.
Qed.

Lemma process_rows_calls state provider today rows st st' s :
  process_rows state provider today rows st = (st', s) ->
  length (s_calls st') <= length (s_calls st) + length rows.
Proof.
  revert st; induction rows as [|row rows IH]; intros st H; simpl in H.
  - simplify_eq. lia.
  - destruct (process_row state provider today row st) as [st1 s1] eqn:E.
    apply process_row_calls in E.
    assert (length (s_calls st1) <= S (length (s_calls st))).
    { destruct E as [->|[c ->]]; [lia|]. rewrite length_app. simpl. lia. }
    destruct s1.
    + apply IH in H. simpl. lia.
    + simplify_eq. simpl. lia.
Qed.

(** X7.  The single pass only looks at the rows of today: running it on
    the whole schedule is running it on the rows whose date is today's, in
    their order, and it makes at most one Publisher call for each of
    them. *)
Theorem single_pass_runs_todays_rows state provider today rows :
  run_schedule state provider today rows
  = run_schedule state provider today (List.filter (is_today today) rows)
  /\ length (s_calls (run_schedule state provider today rows).1)
     <= length (List.filter (is_today today) rows).
Proof.
  split.
  - unfold run_schedule. destruct (bots state); [done|].
    apply process_rows_filter.
  - unfold run_schedule. destruct (bots state); [simpl; lia|].
    rewrite process_rows_filter.
    destruct (process_rows _ _ _ _ _) as [st' s] eqn:E.
    apply process_rows_calls in E. simpl in *. lia.
Qed.

Lemma pretty_nat_digits (n : nat) : ParserSpec.all_digits (pretty n) = true.
Proof.
  unfold pretty, pretty_nat, pretty, pretty_N.
  destruct (decide _); [done|]. by apply ParserFacts.pretty_N_go_digits.
Qed.

Lemma digits_free_of c s :
  Py.isdigit c = false -> ParserSpec.all_digits s = true ->
  ParserSpec.free_of c s = true.
Proof.
  intros Hc. induction s as [|a s IH]; [done|]. simpl. intros H.
  apply andb_prop in H as [Ha Hs]. rewrite (IH Hs), andb_true_r.
  destruct (Ascii.eqb_spec a c) as [->|]; [congruence|done].
Qed.

(** A numeral is its own thread reference. *)
Lemma thread_ref_of_pretty (n : nat) : thread_ref_of (pretty n) = pretty n.
Proof.
  unfold thread_ref_of. rewrite (ParserFacts.split_free "." (pretty n)); [done|].
  apply digits_free_of; [done|apply pretty_nat_digits].
Qed.

Lemma size_insert_le (m : gmap string string) k v : size m <= size (<[k:=v]> m).
Proof. rewrite map_size_insert. destruct (m !! k); simpl; lia. Qed.

Lemma falsy_false_is_Some o : falsy o = false -> is_Some o.
Proof. destruct o; [by eauto|done]. Qed.

Lemma insert_fresh_numbered (m : gmap string string) v :
  numbered m -> numbered (<[pretty (size m) := v]> m).
Proof.
  intros Hn n Hs.
  pose proof (size_insert_le m (pretty (size m)) v) as Hle.
  destruct (decide (pretty (size m) = pretty n)) as [E|E].
  - apply (inj pretty) in E as <-.
    destruct (m !! pretty (size m)) eqn:El.
    + assert (size m < size m); [|lia]. apply Hn. by rewrite El.
    + rewrite map_size_insert_None by done. lia.
  - rewrite lookup_insert_ne in Hs by done. specialize (Hn n Hs). lia.
Qed.

Lemma process_row_numbered state provider today row st st' s :
  numbered (s_post_refs st) ->
  process_row state provider today row st = (st', s) ->
  numbered (s_post_refs st').
Proof.
  unfold process_row. intros Hn H.
  repeat case_match; simplify_eq; cbn [s_post_refs]; try done;
    try (by apply insert_fresh_numbered).
  (* a reply is stored *)
  intros n Hs.
  match goal with
  | |- context [size (<[?k := ?v]> (s_post_refs st))] =>
      pose proof (size_insert_le (s_post_refs st) k v)
  end.
  destruct (decide (field row "reply_to" "" = pretty n)) as [E|E].
  - match goal with
    | F : falsy (s_post_refs st !! thread_ref_of _) = false |- _ =>
        rewrite E, thread_ref_of_pretty in F;
        apply falsy_false_is_Some, Hn in F
    end. lia.
  - rewrite lookup_insert_ne in Hs by done. specialize (Hn n Hs). lia.
Qed.

Lemma process_rows_numbered state provider today rows st st' s :
  numbered (s_post_refs st) ->
  process_rows state provider today rows st = (st', s) ->
  numbered (s_post_refs st').
Proof.
  revert st; induction rows as [|row rows IH]; intros st Hn H; simpl in H.
  - by simplify_eq.
  - destruct (process_row state provider today row st) as [st1 s1] eqn:E.
    apply (process_row_numbered _ _ _ _ _ _ _ Hn) in E.
    destruct s1; [eauto|by simplify_eq].
Qed.

(** X8.  In the single pass a new thread never takes the reference of an
    earlier post: after any rows of a run, a thread-creating row leaves
    every reference that is bound as it is. *)
Theorem single_pass_thread_keeps_references
        state provider today rows row st s st' s' k v :
  process_rows state provider today rows (mkS ∅ []) = (st, s) ->
  field row "kind" "self" = "self" ->
  process_row state provider today row st = (st', s') ->
  s_post_refs st !! k = Some v ->
  s_post_refs st' !! k = Some v.
Proof.
  intros Hrows Hk H Hv.
  assert (Hn : numbered (s_post_refs st)).
  { eapply process_rows_numbered; [|exact Hrows]. intros n [x Hx]. done. }
  assert (Hfresh : pretty (size (s_post_refs st)) <> k).
  { intros <-. assert (size (s_post_refs st) < size (s_post_refs st)); [|lia].
    apply Hn. by rewrite Hv. }
  unfold process_row in H. rewrite Hk in H. simpl in H.
  repeat case_match; simplify_eq; cbn [s_post_refs]; try done.
  all: by rewrite lookup_insert_ne.
Qed.

Lemma single_pass_thread_keeps_references_witness :
  s_post_refs after_two_rows !! "0" = Some "P1"
  /\ s_post_refs (process_row forum publisher day1 second_thread
                              after_two_rows).1 !! "0" = Some "P1".
Proof.
  assert (H : s_post_refs after_two_rows !! "0" = Some "P1")
    by (vm_compute; reflexivity).
  split; [exact H|].
  exact (single_pass_thread_keeps_references forum publisher day1
           [row_thread1; row_1] second_thread after_two_rows _ _ _ "0" "P1"
           (surjective_pairing _) ltac:(vm_compute; reflexivity)
           (surjective_pairing _) H).
Defined.

(** *** Watch mode *)

Lemma due_from_row idx0 rows d t ex x :
  x ∈ due_from idx0 rows d t ex ->
  exists i, x.1.1 = idx0 + i /\ rows !! i = Some (x.1.2)
            /\ field (x.1.2) "datetime" "" = d
            /\ field (x.1.2) "time" "" = t
            /\ x.2 = post_key (x.1.1) d t.
Proof.
  revert idx0; induction rows as [|row rows IH]; intros idx0 Hin; simpl in Hin.
  - by apply elem_of_nil in Hin.
  - assert (Htl : x ∈ due_from (S idx0) rows d t ex ->
                  exists i, x.1.1 = idx0 + i /\ (row :: rows) !! i = Some (x.1.2)
                            /\ field (x.1.2) "datetime" "" = d
                            /\ field (x.1.2) "time" "" = t
                            /\ x.2 = post_key (x.1.1) d t).
    { intros H. destruct (IH _ H) as (i & Hi & Hr & Hd).
      exists (S i). split; [lia|]. by split. }
    case_match eqn:E; [|by auto].
    apply elem_of_cons in Hin as [->|Hin]; [|by auto].
    apply andb_prop in E as [E _]. apply andb_prop in E as [Ed Et].
    apply String.eqb_eq in Ed, Et. exists 0. simpl.
    rewrite Ed, Et. repeat split; try done; lia.
Qed.

Lemma process_due_call_for state provider d st st' s :
  process_due state provider d st = (st', s) ->
  calls st' = calls st
  \/ exists c, calls st' = calls st ++ [(d.2, c)] /\ call_for state (d.1.2) c.
Proof.
  destruct d as [[idx row] key]. unfold process_due. intros H.
  repeat case_match; simplify_eq;
    cbn [calls mark record_call store_ref]; try (by left); right.
  all: eexists; split; [reflexivity|]; eexists; repeat split; try done.
  all: try (by apply negb_false_iff).
  all: try (by apply String.eqb_eq).
  all: match goal with
       | F : falsy ?o = false |- Py.truthy (default "" ?o) = true =>
           destruct o; simpl in *; [by apply negb_false_iff|done]
       end.
Qed.

Lemma process_batch_call_for state provider ds st st' s :
  process_batch state provider ds st = (st', s) ->
  exists new,
    calls st' = calls st ++ new
    /\ Forall (fun kc => exists d, d ∈ ds /\ kc.1 = d.2
                                   /\ call_for state (d.1.2) kc.2) new.
Proof.
  revert st; induction ds as [|d ds IH]; intros st H; simpl in H.
  - simplify_eq. exists []. by rewrite app_nil_r.
  - destruct (process_due state provider d st) as [st1 s1] eqn:E.
    apply process_due_call_for in E.
    assert (Hrest : exists new, calls st' = calls st1 ++ new
              /\ Forall (fun kc => exists d', d' ∈ d :: ds /\ kc.1 = d'.2
                                   /\ call_for state (d'.1.2) kc.2) new).
    { destruct s1.
      - destruct (IH _ H) as (new & Hn & Hf). exists new. split; [done|].
        eapply Forall_impl; [exact Hf|]. intros kc (d' & Hd & Hk).
        exists d'. split; [by right|done].
      - simplify_eq. exists []. by rewrite app_nil_r. }
    destruct Hrest as (new & Hn & Hf).
    destruct E as [E|(c & E & Hc)]; rewrite Hn, E.
    + by exists new.
    + exists ((d.2, c) :: new). rewrite <- app_assoc. split; [done|].
      constructor; [|done]. exists d. split; [by left|done].
Qed.

Lemma run_tick_justified state provider t st st' s :
  (forall l, shuffle t l ≡ₚ l) ->
  run_tick state provider t st = (st', s) ->
  exists new, calls st' = calls st ++ new /\ Forall (justified state t) new.
Proof.
  intros Hp H. unfold run_tick in H.
  destruct (due_posts (rows t) (current_date t) (current_time t)
                      (executed_posts st)) as [|d0 ds0] eqn:Ed.
  { simplify_eq. exists []. by rewrite app_nil_r. }
  rewrite <- Ed in H.
  apply process_batch_call_for in H as (new & Hn & Hf).
  exists new. split; [done|].
  eapply Forall_impl; [exact Hf|]. intros kc (d & Hd & Hk & Hc).
  rewrite (Hp _) in Hd. apply due_from_row in Hd as (i & Hi & Hr & Hdt & Htm & Hkey).
  simpl in Hi. exists i, (d.1.2). rewrite Hk, Hkey, Hi. done.
Qed.

(** X9.  Watch mode only publishes what is scheduled for the minute of a
    tick: every Publisher call of a run was made at a tick whose schedule
    holds, at the index of the call's post key, a row dated and timed with
    the date and minute of that tick; the row names an account with a bot
    and a token, and the call carries that bot and the row's text. *)
Theorem watch_calls_are_justified state provider ts st' s :
  shuffles_permute ts ->
  run_watch state provider ts = (st', s) ->
  Forall (fun kc => exists t, t ∈ ts /\ justified state t kc) (calls st').
Proof.
  intros Hp H. unfold run_watch in H.
  destruct (bots state); [simplify_eq; constructor|].
  change (Forall (fun kc => exists t, t ∈ ts /\ justified state t kc)
                 (calls initial)) with (Forall (fun kc : string * call =>
                    exists t, t ∈ ts /\ justified state t kc) []) in *.
  assert (Hgen : forall st0, run_ticks state provider ts st0 = (st', s) ->
            exists new, calls st' = calls st0 ++ new
              /\ Forall (fun kc => exists t, t ∈ ts /\ justified state t kc) new).
  { clear H. induction Hp as [|t ts Ht Hts IH]; intros st0 H; simpl in H.
    - simplify_eq. exists []. by rewrite app_nil_r.
    - destruct (run_tick state provider t st0) as [st1 s1] eqn:E.
      apply (run_tick_justified _ _ _ _ _ _ Ht) in E as (new1 & Hn1 & Hf1).
      assert (Hf1' : Forall (fun kc => exists t', t' ∈ t :: ts
                                        /\ justified state t' kc) new1).
      { eapply Forall_impl; [exact Hf1|]. intros kc Hj. exists t.
        split; [by left|done]. }
      destruct s1.
      + destruct (IH _ H) as (new2 & Hn2 & Hf2).
        exists (new1 ++ new2). rewrite Hn2, Hn1, <- app_assoc.
        split; [done|]. apply Forall_app. split; [done|].
        eapply Forall_impl; [exact Hf2|]. intros kc (t' & Ht' & Hj).
        exists t'. split; [by right|done].
      + simplify_eq. by exists new1. }
  destruct (Hgen _ H) as (new & -> & Hf). done.
Qed.

Lemma watch_calls_are_justified_witness :
  shuffles_permute two_days
  /\ Forall (fun kc => exists t, t ∈ two_days /\ justified forum t kc)
            (calls (run_watch forum publisher two_days).1).
Proof.
  assert (Hp : shuffles_permute two_days).
  { apply at_minute_permutes.
    repeat (apply Forall_cons_2; [by eexists _, _|]). apply Forall_nil_2. }
  split; [exact Hp|].
  exact (watch_calls_are_justified forum publisher two_days _ _ Hp
           (surjective_pairing _)).
Defined.

Lemma due_from_exhausted idx rows d t (ex ex' : gset string) :
  ex ⊆ ex' ->
  (forall x, x ∈ due_from idx rows d t ex -> key_of x ∈ ex') ->
  due_from idx rows d t ex' = [].
Proof.
  intros Hsub. revert idx; induction rows as [|row rows IH]; intros idx Hall;
    [done|].
  simpl in *.
  destruct (String.eqb (field row "datetime" "") d
            && String.eqb (field row "time" "") t) eqn:Edt; simpl in *.
  - destruct (bool_decide (post_key idx (field row "datetime" "")
                             (field row "time" "") ∈ ex)) eqn:Eex; simpl in *.
    + apply bool_decide_eq_true in Eex. apply Hsub in Eex.
      rewrite (bool_decide_eq_true_2 _ Eex). simpl. by apply IH.
    + assert (Hk : post_key idx (field row "datetime" "")
                     (field row "time" "") ∈ ex').
      { apply (Hall (idx, row, _)). by left. }
      rewrite (bool_decide_eq_true_2 _ Hk). simpl.
      apply IH. intros x Hx. apply Hall. by right.
  - by apply IH.
Qed.

(** X10.  A tick that ended normally leaves nothing due: presented again
    with the same date, minute and schedule, the loop finds no record to
    process and changes neither ledger nor reply index nor makes a call. *)
Theorem tick_leaves_nothing_due state provider t st st' :
  (forall l, shuffle t l ≡ₚ l) ->
  run_tick state provider t st = (st', Continue) ->
  due_posts (rows t) (current_date t) (current_time t) (executed_posts st') = []
  /\ run_tick state provider t st' = (st', Continue).
Proof.
  intros Hp H.
  assert (Hd : due_posts (rows t) (current_date t) (current_time t)
                         (executed_posts st') = []).
  { unfold run_tick in H.
    destruct (due_posts (rows t) (current_date t) (current_time t)
                        (executed_posts st)) as [|d0 ds0] eqn:Ed.
    { by simplify_eq. }
    rewrite <- Ed in H.
    apply process_batch_spec in H as (new & _ & _ & Hsub & Hex & _).
    specialize (Hex eq_refl).
    apply (due_from_exhausted 0 _ _ _ (executed_posts st)); [done|].
    intros x Hx. rewrite Hex. apply elem_of_union_l, elem_of_list_to_set.
    apply list_elem_of_fmap. exists x. split; [done|].
    rewrite (Hp _). exact Hx. }
  split; [exact Hd|]. unfold run_tick. by rewrite Hd.
Qed.

Lemma tick_leaves_nothing_due_witness :
  run_tick forum publisher (at_minute day1 "10:00") initial
    = (after_first_tick, Continue)
  /\ run_tick forum publisher (at_minute day1 "10:00") after_first_tick
     = (after_first_tick, Continue).
Proof.
  assert (H : run_tick forum publisher (at_minute day1 "10:00") initial
              = (after_first_tick, Continue)) by (vm_compute; reflexivity).
  split; [exact H|].
  exact (proj2 (tick_leaves_nothing_due forum publisher
                  (at_minute day1 "10:00") initial after_first_tick
                  (fun l => reflexivity l) H)).
Defined.

(** X11.  A row timed 840 minutes or more after 10:00 is never due: no
    tick of a clock that shows hours below 24 selects it. *)
Theorem late_row_is_never_due rows d h m ex off x :
  h < 24 -> 840 <= off ->
  x ∈ due_posts rows d (ParserSpec.clock_time h m) ex ->
  field (x.1.2) "time" "" <> Convert.time_str off.
Proof.
  intros Hh Hoff Hin Ht.
  apply due_from_row in Hin as (_ & _ & _ & _ & Htime & _).
  rewrite Ht, ParserFacts.time_str_clock_time in Htime.
  apply ParserFacts.clock_time_inj in Htime as [Hhour _].
  assert (14 <= off / 60) by (apply Nat.div_le_lower_bound; lia). lia.
Qed.

Lemma late_row_is_never_due_witness :
  (1, row_1, "1:2025-03-01:10:05")
    ∈ due_posts schedule day1 (ParserSpec.clock_time 10 5) ∅
  /\ field row_1 "time" "" <> Convert.time_str 840.
Proof.
  assert (H : (1, row_1, "1:2025-03-01:10:05")
                ∈ due_posts schedule day1 (ParserSpec.clock_time 10 5) ∅).
  { assert (E : due_posts schedule day1 (ParserSpec.clock_time 10 5) ∅
                = [(1, row_1, "1:2025-03-01:10:05")])
      by (vm_compute; reflexivity).
    rewrite E. apply list_elem_of_here. }
  split; [exact H|].
  exact (late_row_is_never_due schedule day1 10 5 ∅ 840 _
           ltac:(lia) ltac:(lia) H).
Defined.

(** X12.  After whole iterations of watch mode that ended without an
    exception the ledger holds at least as many keys as Publisher calls
    were made: every call was followed by the marking of its record, and
    the skipped records are in the ledger too.  (An interrupt that falls
    inside an iteration, between a call and the marking, is not part of
    this statement.) *)
Theorem ledger_size_bounds_calls state provider ts st' :
  shuffles_permute ts ->
  run_watch state provider ts = (st', Continue) ->
  length (calls st') <= size (executed_posts st').
Proof.
  intros Hp H. unfold run_watch in H. destruct (bots state).
  { simplify_eq. simpl. lia. }
  destruct (run_ticks_spec _ _ _ _ _ _ Hp H) as (new & Hc & Hnd & _ & _ & Hin & _).
  rewrite Hc. simpl. rewrite <- (length_fmap fst new).
  rewrite <- (size_list_to_set (C:=gset string) (new.*1)) by done.
  apply subseteq_size. intros k Hk. apply elem_of_list_to_set in Hk.
  by apply Hin.
Qed.

Lemma ledger_size_bounds_calls_witness :
  shuffles_permute two_days
  /\ length (calls (run_watch forum publisher two_days).1) = 4
  /\ size (executed_posts (run_watch forum publisher two_days).1) = 5
  /\ length (calls (run_watch forum publisher two_days).1)
     <= size (executed_posts (run_watch forum publisher two_days).1).
Proof.
  assert (Hp : shuffles_permute two_days).
  { apply at_minute_permutes.
    repeat (apply Forall_cons_2; [by eexists _, _|]). apply Forall_nil_2. }
  split; [exact Hp|]. split; [vm_compute; reflexivity|].
  split; [vm_compute; reflexivity|].
  assert (H : run_watch forum publisher two_days
              = ((run_watch forum publisher two_days).1, Continue)).
  { rewrite (surjective_pairing (run_watch forum publisher two_days)) at 1.
    by f_equal. }
  exact (ledger_size_bounds_calls forum publisher two_days _ Hp H).
Defined.

End SchedulerFacts.

(** * Properties of the API client *)

Module ProviderFacts.
Import Provider SetupSpec.

Lemma rstrip_slash_slashes (n : nat) : rstrip_slash (slashes n) = "".
Proof. induction n as [|n IH]; [done|]. simpl. by rewrite IH. Qed.

Lemma rstrip_slash_app_slashes (s : string) (n : nat) :
  rstrip_slash (s ++ slashes n) = rstrip_slash s.
Proof.
  induction s as [|c s IH].
  - change ("" ++ slashes n) with (slashes n). apply rstrip_slash_slashes.
  - change (String c s ++ slashes n) with (String c (s ++ slashes n)).
    simpl. by rewrite IH.
Qed.

Lemma lstrip_slash_slashes_app (m : nat) (s : string) :
  lstrip_slash (slashes m ++ s) = lstrip_slash s.
Proof.
  induction m as [|m IH]; [done|].
  change (slashes (S m) ++ s) with (String "/" (slashes m ++ s)).
  simpl. exact IH.
Qed.

(** X13.  The URL of a request does not depend on slashes at the end of
    the base URL or at the start of the endpoint. *)
Theorem url_ignores_extra_slashes
        (base email password endpoint : string) (n m : nat) :
  url_of (new (base ++ slashes n) email password) (slashes m ++ endpoint)
  = url_of (new base email password) endpoint.
Proof.
  unfold url_of, new. cbn [api_url].
  by rewrite rstrip_slash_app_slashes, lstrip_slash_slashes_app.
Qed.

Lemma interpret_not_no_token (o : http_outcome) :
  interpret o <> Raise NoTokenError.
Proof.
  destruct o as [code [j|] text|]; simpl; repeat case_match; congruence.
Qed.

Section ClientFacts.
Variable http : request -> http_outcome.

(** X14.  A thread is submitted with the token that was set for the bot
    and with nothing of the admin: the request is a POST to bot/threads
    under the base URL with this token as the bearer.  With an empty token
    nothing is sent.  The token set for one bot leaves the submissions of
    every other bot as they were. *)
Theorem thread_is_sent_with_the_bots_token
        (p : provider) (bot_id token : string)
        (slug : option string) (title content : string) :
  submit_thread http (set_bot_token p bot_id token) bot_id slug title content
  = (if Py.truthy token
     then interpret
            (http (mkRequest "POST" (api_url p ++ "/bot/threads")
                     (Some (JStr token))
                     (Some (JObj [("subcommunitySlug", jopt slug);
                                  ("title", JStr title);
                                  ("content", JStr content)]))
                     None))
     else Raise NoTokenError)
  /\ forall other, other <> bot_id ->
       submit_thread http (set_bot_token p bot_id token) other slug title
                     content
       = submit_thread http p other slug title content.
Proof.
  split.
  - unfold submit_thread, set_bot_token. cbn [Provider.bot_tokens].
    rewrite lookup_insert_eq.
    destruct (Py.truthy token) eqn:Ht; [|done].
    unfold submit_thread_request, request_of, authorization_of, url_of.
    cbn [api_url admin_token]. by rewrite Ht.
  - intros other Ho. unfold submit_thread, set_bot_token.
    cbn [Provider.bot_tokens]. rewrite lookup_insert_ne by done.
    destruct (Provider.bot_tokens p !! other) as [t|]; [|done].
    destruct (Py.truthy t) eqn:Ht; [|done].
    unfold submit_thread_request, request_of, authorization_of, url_of.
    cbn [api_url admin_token]. by rewrite Ht.
Qed.

(** X15.  A reply is submitted with the token that was set for the bot;
    its body names the parent post exactly when a parent that is not empty
    is given. *)
Theorem reply_names_a_parent_only_if_given
        (p : provider) (bot_id token thread_id content : string)
        (parent : option string) :
  Py.truthy token = true ->
  submit_reply http (set_bot_token p bot_id token) bot_id thread_id content
               parent
  = interpret
      (http (mkRequest "POST" (api_url p ++ "/bot/posts")
               (Some (JStr token))
               (Some (JObj ([("threadId", JStr thread_id);
                             ("content", JStr content)]
                            ++ match parent with
                               | Some post =>
                                   if Py.truthy post
                                   then [("parentPostId", JStr post)]
                                   else []
                               | None => []
                               end)))
               None)).
Proof.
  intros Ht. unfold submit_reply, set_bot_token. cbn [Provider.bot_tokens].
  rewrite lookup_insert_eq, Ht.
  unfold submit_reply_request, request_of, authorization_of, url_of, with_field.
  cbn [api_url admin_token]. rewrite Ht.
  destruct parent as [post|]; simpl; [|done].
  by destruct (Py.truthy post).
Qed.

Lemma interpret_return (o : http_outcome) (j : json) :
  interpret o = Return j ->
  exists code body text,
    o = Response code body text /\ (code < 400)%Z
    /\ ((code = 204%Z /\ j = JObj []) \/ (code <> 204%Z /\ body = Some j)).
Proof.
  destruct o as [code body text|]; simpl; [|done].
  destruct (400 <=? code)%Z eqn:H4; [done|].
  apply Z.leb_gt in H4.
  destruct (code =? 204)%Z eqn:H2.
  - apply Z.eqb_eq in H2. intros [= <-]. exists code, body, text. auto.
  - apply Z.eqb_neq in H2. destruct body as [b|]; [|done].
    intros [= <-]. exists code, (Some b), text. auto.
Qed.

(** X16.  A submission returns only if the bot has a token and the server
    answered the request made with it by a status below 400: the value is
    the decoded body, or the empty dictionary for status 204. *)
Theorem submission_returns_only_on_success
        (p : provider) (bot_id : string) (slug : option string)
        (title content : string) (j : json) :
  submit_thread http p bot_id slug title content = Return j ->
  exists token code body text,
    Provider.bot_tokens p !! bot_id = Some token
    /\ Py.truthy token = true
    /\ http (submit_thread_request p token slug title content)
       = Response code body text
    /\ (code < 400)%Z
    /\ ((code = 204%Z /\ j = JObj []) \/ (code <> 204%Z /\ body = Some j)).
Proof.
  unfold submit_thread.
  destruct (Provider.bot_tokens p !! bot_id) as [token|]; [|done].
  destruct (Py.truthy token) eqn:Ht; [|done].
  intros (code & body & text & Ho & Hc & Hj)%interpret_return.
  exists token, code, body, text. auto.
Qed.

End ClientFacts.

Lemma reply_names_a_parent_only_if_given_witness :
  Py.truthy "alice-token" = true
  /\ submit_reply (fun _ => created) (set_bot_token admin "b1" "alice-token")
                  "b1" "t1" "Welcome" (Some "")
     = interpret
         ((fun _ => created)
            (mkRequest "POST" (api_url admin ++ "/bot/posts")
               (Some (JStr "alice-token"))
               (Some (JObj ([("threadId", JStr "t1");
                             ("content", JStr "Welcome")]
                            ++ (if Py.truthy "" then [("parentPostId", JStr "")]
                                else []))))
               None)).
Proof.
  assert (H : Py.truthy "alice-token" = true) by reflexivity.
  split; [exact H|].
  exact (reply_names_a_parent_only_if_given (fun _ => created) admin "b1"
           "alice-token" "t1" "Welcome" (Some "") H).
Defined.

Lemma submission_returns_only_on_success_witness :
  submit_thread (fun _ => created) alice "b1" (Some "quiet-meadow")
                "Hello" "First post"
  = Return (JObj [("threadId", JStr "t1"); ("postId", JStr "p1")])
  /\ exists token code body text,
       Provider.bot_tokens alice !! "b1" = Some token
       /\ Py.truthy token = true
       /\ (fun _ => created)
            (submit_thread_request alice token (Some "quiet-meadow")
                                   "Hello" "First post")
          = Response code body text
       /\ (code < 400)%Z
       /\ ((code = 204%Z
            /\ JObj [("threadId", JStr "t1"); ("postId", JStr "p1")] = JObj [])
           \/ (code <> 204%Z
               /\ body = Some (JObj [("threadId", JStr "t1");
                                     ("postId", JStr "p1")]))).
Proof.
  assert (H : submit_thread (fun _ => created) alice "b1" (Some "quiet-meadow")
                            "Hello" "First post"
              = Return (JObj [("threadId", JStr "t1"); ("postId", JStr "p1")]))
    by (vm_compute; reflexivity).
  split; [exact H|].
  exact (submission_returns_only_on_success (fun _ => created) alice "b1"
           (Some "quiet-meadow") "Hello" "First post" _ H).
Defined.

End ProviderFacts.

(** * Properties of the forum setup *)

Module SetupFacts.
Import Provider Init SetupSpec.
Local Open Scope list_scope.

Lemma add_bots_communities k c j bots st st' :
  add_bots k c j bots st = Return st' ->
  st_communities st' = st_communities st.
Proof.
  revert j st. induction bots as [|b bots IH]; intros j st; simpl.
  - by intros [= <-].
  - destruct (key_of (b_display_name b)) as [name|]; [|done].
    destruct (jtruthy (b_access_token b)).
    + destruct (key_of (b_id b)) as [i|]; [|done].
      intros H. by rewrite (IH _ _ H).
    + intros H. by rewrite (IH _ _ H).
Qed.

Lemma add_bots_tokens k c j bots st st' :
  add_bots k c j bots st = Return st' ->
  forall i v, tokens_of st' !! i = Some v ->
              tokens_of st !! i = Some v \/ jtruthy v = true.
Proof.
  revert j st. induction bots as [|b bots IH]; intros j st; simpl.
  - intros [= <-]. auto.
  - destruct (key_of (b_display_name b)) as [name|]; [|done].
    destruct (jtruthy (b_access_token b)) eqn:Ht.
    + destruct (key_of (b_id b)) as [i0|]; [|done].
      intros H i v Hv. destruct (IH _ _ H i v Hv) as [Hi|]; [|by right].
      unfold tokens_of in Hi. cbn in Hi.
      destruct (decide (i0 = i)) as [->|Hne].
      * rewrite lookup_insert_eq in Hi. injection Hi as <-. by right.
      * rewrite lookup_insert_ne in Hi by done. by left.
    + intros H i v Hv. exact (IH _ _ H i v Hv).
Qed.

Lemma hd_with_field k v (l : list (string * json)) x :
  hd_error l = Some x -> hd_error (with_field k v l) = Some x.
Proof.
  unfold with_field. destruct (jtruthy v); [|done]. by destruct l.
Qed.

Lemma community_request_is_not_bots_request p a b c :
  ~ is_bots_request (create_community_request p a b c).
Proof.
  intros (p' & x & y & z & H).
  apply (f_equal data) in H. unfold create_community_request,
    create_bots_request, request_of in H. cbn [data] in H.
  injection H as H. apply (f_equal hd_error) in H.
  rewrite (hd_with_field _ _ _ ("type", a)) in H.
  2:{ by apply hd_with_field. }
  by rewrite (hd_with_field _ _ _ ("count", x)) in H.
Qed.

(** One iteration of the loop of [init_forum], case by case. *)
Ltac loop_cases c :=
  simpl;
  destruct (inactive c) eqn:Hinactive;
  [|destruct (bool_decide (is_Some (st_communities _ !! _))) eqn:Hknown;
    [|apply bool_decide_eq_false in Hknown;
      rewrite <- eq_None_not_Some in Hknown;
      destruct (create_community _ _ _ _ _) as [community|e] eqn:Hcommunity;
      [destruct (create_bots _ _ _ _ _) as [bots|e] eqn:Hbots;
        [destruct (add_bots _ _ _ _ _) as [st'|e] eqn:Hadd|]|]]].

Section RequestFacts.
Variable server : list request -> request -> http_outcome.

Lemma create_all_requests p cs : forall i st file log kr,
  kr ∈ requests (create_all server p i cs st file log) ->
  kr ∈ log
  \/ exists j c, cs !! j = Some c /\ inactive c = false
                 /\ kr.1 = Some (comm_key (i + j))
                 /\ st_communities st !! comm_key (i + j) = None.
Proof.
  induction cs as [|c cs IH]; intros i st file log kr; [by left|].
  assert (Hshift : forall st',
    (exists j c0, cs !! j = Some c0 /\ inactive c0 = false
                  /\ kr.1 = Some (comm_key (S i + j))
                  /\ st_communities st' !! comm_key (S i + j) = None) ->
    (forall k, st_communities st' !! k = None -> st_communities st !! k = None) ->
    exists j c0, (c :: cs) !! j = Some c0 /\ inactive c0 = false
                 /\ kr.1 = Some (comm_key (i + j))
                 /\ st_communities st !! comm_key (i + j) = None).
  { intros st' (j & c0 & H1 & H2 & H3 & H4) Hst. exists (S j), c0.
    replace (i + S j) with (S i + j) by lia. naive_solver. }
  assert (Hhere : forall r, inactive c = false ->
    st_communities st !! comm_key i = None -> kr = (Some (comm_key i), r) ->
    exists j c0, (c :: cs) !! j = Some c0 /\ inactive c0 = false
                 /\ kr.1 = Some (comm_key (i + j))
                 /\ st_communities st !! comm_key (i + j) = None).
  { intros r H1 H2 ->. exists 0, c. rewrite Nat.add_0_r. done. }
  loop_cases c.
  - intros [?|H]%IH; [by left|]. right. by apply (Hshift st).
  - intros [?|H]%IH; [by left|]. right. by apply (Hshift st).
  - intros [Hin|H]%IH.
    + rewrite !elem_of_app, !list_elem_of_singleton in Hin.
      destruct Hin as [[?|?]|?]; [by left|right; eauto..].
    + right. apply (Hshift st'); [done|].
      intros k. rewrite (add_bots_communities _ _ _ _ _ _ Hadd). cbn.
      intros Hk. by apply lookup_insert_None in Hk as [? _].
  - cbn. rewrite !elem_of_app, !list_elem_of_singleton.
    intros [[?|?]|?]; [by left|right; eauto..].
  - cbn. rewrite !elem_of_app, !list_elem_of_singleton.
    intros [[?|?]|?]; [by left|right; eauto..].
  - cbn. rewrite !elem_of_app, !list_elem_of_singleton.
    intros [?|?]; [by left|right; eauto].
Qed.

(** X17.  Every request of [init_forum] after the login is made for an
    active entry of the config whose key the state does not hold: a
    community that the state file records gets no request. *)
Theorem recorded_communities_get_no_request
        (p : provider) (config : list comm_config) (st : state) :
  Forall (fun kr => kr.1 = None \/ exists k, kr.1 = Some k /\ pending config st k)
         (requests (init_forum server p config st)).
Proof.
  apply Forall_forall. intros kr. unfold init_forum.
  destruct (login (server []) p) as [p'|e].
  - intros [Hin|(j & c & H1 & H2 & H3 & H4)]%create_all_requests.
    + apply list_elem_of_singleton in Hin as ->. by left.
    + right. exists (comm_key j). split; [done|]. by exists j, c.
  - cbn. intros ->%list_elem_of_singleton. by left.
Qed.

End RequestFacts.

Section ServerFacts.
Variable server : list request -> request -> http_outcome.

Lemma create_all_keeps_saved p cs : forall i st file log,
  is_Some file -> is_Some (saved (create_all server p i cs st file log)).
Proof.
  induction cs as [|c cs IH]; intros i st file log Hs; [done|].
  loop_cases c; try done; by apply IH.
Qed.

Lemma create_all_bots_saved p cs : forall i st file log,
  (forall s k, file = Some s -> is_Some (st_communities s !! k) ->
               is_Some (st_communities st !! k)) ->
  (forall k r, (Some k, r) ∈ log -> is_bots_request r ->
               exists s, file = Some s /\ is_Some (st_communities s !! k)) ->
  forall k r,
    (Some k, r) ∈ requests (create_all server p i cs st file log) ->
    is_bots_request r ->
    exists s, saved (create_all server p i cs st file log) = Some s
              /\ is_Some (st_communities s !! k).
Proof.
  induction cs as [|c cs IH]; intros i st file log Hsub Hlog; [done|].
  assert (Hnew : forall community a b d x y z k r,
    (Some k, r) ∈ (log ++ [(Some (comm_key i),
                            create_community_request p a b d)])
                  ++ [(Some (comm_key i), create_bots_request p x y z)] ->
    is_bots_request r ->
    is_Some (st_communities (set_community (comm_key i) community st) !! k)).
  { intros community a b d x y z k r Hin Hr. cbn.
    rewrite !elem_of_app, !list_elem_of_singleton in Hin.
    apply lookup_insert_is_Some'.
    destruct Hin as [[Hin|[= -> ->]]|[= -> ->]].
    - right. destruct (Hlog k r Hin Hr) as (s & Hs & Hk). by apply (Hsub s).
    - by apply community_request_is_not_bots_request in Hr.
    - by left. }
  loop_cases c.
  - by apply IH.
  - by apply IH.
  - apply IH.
    + intros s k [= <-]. done.
    + intros k r Hin Hr. exists st'. split; [done|].
      rewrite (add_bots_communities _ _ _ _ _ _ Hadd).
      by apply (Hnew _ _ _ _ _ _ _ _ _ Hin Hr).
  - cbn. intros k r Hin Hr. eexists. split; [done|].
    by apply (Hnew _ _ _ _ _ _ _ _ _ Hin Hr).
  - cbn. intros k r Hin Hr. eexists. split; [done|].
    by apply (Hnew _ _ _ _ _ _ _ _ _ Hin Hr).
  - cbn. intros k r Hin Hr.
    rewrite elem_of_app, list_elem_of_singleton in Hin.
    destruct Hin as [Hin|[= -> ->]]; [by apply (Hlog k r)|].
    by apply community_request_is_not_bots_request in Hr.
Qed.

(** X18.  Once the request for the bots of a community has been sent, the
    community is in the state file, whatever becomes of the request; no
    later run of [init_forum] on a state with these communities sends a
    request for it.  A bot creation that failed is not tried again. *)
Theorem bot_creation_is_attempted_once
        (p : provider) (config : list comm_config) (st : state)
        (k : string) (p' : provider) (count subcommunity_id rules : json) :
  (Some k, create_bots_request p' count subcommunity_id rules)
    ∈ requests (init_forum server p config st) ->
  exists s,
    saved (init_forum server p config st) = Some s
    /\ is_Some (st_communities s !! k)
    /\ forall server2 p2 config2 s2,
         st_communities s2 = st_communities s ->
         Forall (fun kr => kr.1 <> Some k)
                (requests (init_forum server2 p2 config2 s2)).
Proof.
  intros Hin.
  assert (Hs : exists s, saved (init_forum server p config st) = Some s
                         /\ is_Some (st_communities s !! k)).
  { revert Hin. unfold init_forum.
    destruct (login (server []) p) as [p1|e].
    - intros Hin. apply (create_all_bots_saved _ _ _ _ _ _) with
        (r := create_bots_request p' count subcommunity_id rules);
        [done| |done|by exists p', count, subcommunity_id, rules].
      by intros k0 r [=]%list_elem_of_singleton.
    - cbn. intros [=]%list_elem_of_singleton. }
  destruct Hs as (s & Hs & Hk). exists s. split; [done|]. split; [done|].
  intros server2 p2 config2 s2 Heq.
  apply Forall_forall. intros kr Hkr Hk'.
  revert Hkr. unfold init_forum.
  destruct (login (server2 []) p2) as [p3|e].
  - intros [Hl|(j & c & _ & _ & H3 & H4)]%create_all_requests.
    + apply list_elem_of_singleton in Hl as ->. done.
    + rewrite Hk' in H3. injection H3 as ->. rewrite Heq in H4.
      cbn in H4. rewrite H4 in Hk. by destruct Hk.
  - cbn. intros ->%list_elem_of_singleton. done.
Qed.

Lemma create_all_file p cs : forall i st file log,
  file = None \/ file = Some st ->
  (forall k v, st_communities st !! k = Some v ->
     st_communities (file_after st (create_all server p i cs st file log))
       !! k = Some v)
  /\ (outcome (create_all server p i cs st file log) = None ->
      forall j c, cs !! j = Some c -> inactive c = false ->
        is_Some (st_communities
                   (file_after st (create_all server p i cs st file log))
                   !! comm_key (i + j))).
Proof.
  induction cs as [|c cs IH]; intros i st file log Hsaved.
  { split; [|done]. intros k v Hk. unfold file_after. cbn.
    by destruct Hsaved as [->| ->]. }
  assert (Hdirect : forall k v, st_communities st !! k = Some v ->
            st_communities (default st file) !! k = Some v).
  { intros k v Hk. by destruct Hsaved as [->| ->]. }
  assert (Hskip : forall r : run,
    (forall k v, st_communities st !! k = Some v ->
                 st_communities (file_after st r) !! k = Some v) ->
    (outcome r = None -> forall j c0, cs !! j = Some c0 ->
       inactive c0 = false ->
       is_Some (st_communities (file_after st r) !! comm_key (S i + j))) ->
    (inactive c = false -> is_Some (st_communities st !! comm_key i)) ->
    outcome r = None ->
    forall j c0, (c :: cs) !! j = Some c0 -> inactive c0 = false ->
      is_Some (st_communities (file_after st r) !! comm_key (i + j))).
  { intros r Hframe Hrest Hhere Hr [|j] c0 Hj Hc0.
    - injection Hj as <-. rewrite Nat.add_0_r.
      destruct (Hhere Hc0) as [v Hv]. exists v. by apply Hframe.
    - replace (i + S j) with (S i + j) by lia. by apply (Hrest Hr j c0). }
  loop_cases c.
  - destruct (IH (S i) st file log Hsaved) as [Hf Hr].
    split; [done|]. apply Hskip; [done..|congruence].
  - destruct (IH (S i) st file log Hsaved) as [Hf Hr].
    split; [done|]. apply Hskip; [done..|].
    intros _. by apply bool_decide_eq_true in Hknown.
  - match goal with
    | |- context [create_all server p (S i) cs st' (Some st') ?l] =>
        destruct (IH (S i) st' (Some st') l (or_intror eq_refl)) as [Hf Hr];
        destruct (create_all_keeps_saved p cs (S i) st' (Some st') l
                    (mk_is_Some _ _ eq_refl)) as [s Hs]
    end.
    unfold file_after in *. rewrite Hs in *. cbn [default] in *.
    assert (Hgrow : forall k v, st_communities st !! k = Some v ->
              st_communities st' !! k = Some v).
    { intros k v Hk. rewrite (add_bots_communities _ _ _ _ _ _ Hadd). cbn.
      rewrite lookup_insert_ne; [done|]. intros <-. congruence. }
    split; [by auto|].
    intros Hout [|j] c0 Hj Hc0.
    + rewrite Nat.add_0_r.
      assert (Hi : is_Some (st_communities st' !! comm_key i)).
      { rewrite (add_bots_communities _ _ _ _ _ _ Hadd). cbn.
        rewrite lookup_insert_eq. done. }
      destruct Hi as [v Hv]. exists v. by apply Hf.
    + replace (i + S j) with (S i + j) by lia. by apply (Hr Hout j c0).
  - unfold file_after. cbn. split; [|done].
    intros k v Hk. rewrite lookup_insert_ne; [done|]. intros <-. congruence.
  - unfold file_after. cbn. split; [|done].
    intros k v Hk. rewrite lookup_insert_ne; [done|]. intros <-. congruence.
  - unfold file_after. cbn. split; [|done]. done.
Qed.

(** X19.  When [init_forum] returns, the state file holds a community for
    every active entry of the config, and every community that the state
    held before is there unchanged. *)
Theorem setup_completes_the_config
        (p : provider) (config : list comm_config) (st : state) :
  outcome (init_forum server p config st) = None ->
  (forall i c, config !! i = Some c -> inactive c = false ->
     is_Some (st_communities
                (file_after st (init_forum server p config st))
                !! comm_key i))
  /\ (forall k v, st_communities st !! k = Some v ->
        st_communities (file_after st (init_forum server p config st)) !! k
        = Some v).
Proof.
  unfold init_forum. destruct (login (server []) p) as [p'|e]; [|done].
  intros Hout.
  destruct (create_all_file p' config 0 st None [(None, login_request p)]
              (or_introl eq_refl)) as [Hf Hr].
  split; [|done]. intros i c. by apply (Hr Hout i c).
Qed.

Lemma create_all_tokens (st0 : state) p cs : forall i st file log,
  (forall s, file = Some s -> forall b v, tokens_of s !! b = Some v ->
     tokens_of st0 !! b = Some v \/ jtruthy v = true) ->
  (forall b v, tokens_of st !! b = Some v ->
     tokens_of st0 !! b = Some v \/ jtruthy v = true) ->
  forall s, saved (create_all server p i cs st file log) = Some s ->
    forall b v, tokens_of s !! b = Some v ->
      tokens_of st0 !! b = Some v \/ jtruthy v = true.
Proof.
  induction cs as [|c cs IH]; intros i st file log Hsaved Hst; [done|].
  loop_cases c.
  - by apply IH.
  - by apply IH.
  - assert (Hst' : forall b v, tokens_of st' !! b = Some v ->
              tokens_of st0 !! b = Some v \/ jtruthy v = true).
    { intros b v Hv.
      destruct (add_bots_tokens _ _ _ _ _ _ Hadd b v Hv) as [H|H]; [|by right].
      by apply Hst. }
    apply IH; [|done]. by intros s [= <-].
  - cbn. intros s [= <-]. exact Hst.
  - cbn. intros s [= <-]. exact Hst.
  - cbn. exact Hsaved.
Qed.

(** X20.  [init_forum] stores no empty token: a token in the state file
    after a run was there before the run or is a true value. *)
Theorem setup_stores_no_empty_token
        (p : provider) (config : list comm_config) (st : state)
        (b : key) (v : json) :
  tokens_of (file_after st (init_forum server p config st)) !! b = Some v ->
  tokens_of st !! b = Some v \/ jtruthy v = true.
Proof.
  unfold file_after.
  destruct (saved (init_forum server p config st)) as [s|] eqn:Hs;
    cbn [default]; [|by left].
  revert Hs. unfold init_forum.
  destruct (login (server []) p) as [p'|e]; [|done].
  intros Hs Hv.
  refine (create_all_tokens st p' config 0 st None _ _ _ s Hs b v Hv);
    [done|by left].
Qed.

Lemma create_all_authorization p cs (Q : option string * request -> Prop) :
  (forall k method endpoint data params,
     Q (Some k, request_of p method endpoint None data params)) ->
  forall i st file log,
    Forall Q log -> Forall Q (requests (create_all server p i cs st file log)).
Proof.
  intros HQ. induction cs as [|c cs IH]; intros i st file log Hlog; [done|].
  loop_cases c.
  - by apply IH.
  - by apply IH.
  - apply IH. repeat (apply Forall_app; split; [|apply Forall_singleton]);
      [done|apply HQ..].
  - cbn. repeat (apply Forall_app; split; [|apply Forall_singleton]);
      [done|apply HQ..].
  - cbn. repeat (apply Forall_app; split; [|apply Forall_singleton]);
      [done|apply HQ..].
  - cbn. repeat (apply Forall_app; split; [|apply Forall_singleton]);
      [done|apply HQ..].
Qed.

(** X21.  After a login that succeeds, the admin token is the value of
    [tokens.accessToken] in the login response, and every later request
    of [init_forum] carries it as the bearer, or no Authorization header
    if it is not a true value. *)
Theorem setup_requests_carry_the_login_token
        (p p' : provider) (config : list comm_config) (st : state) :
  login (server []) p = Return p' ->
  exists response tokens token,
    interpret (server [] (login_request p)) = Return response
    /\ jget "tokens" response = Some tokens
    /\ jget "accessToken" tokens = Some token
    /\ admin_token p' = Some token
    /\ Forall (fun kr => kr.1 = None
                         \/ authorization kr.2
                            = (if jtruthy token then Some token else None))
              (requests (init_forum server p config st)).
Proof.
  intros Hlogin. unfold init_forum. rewrite Hlogin.
  revert Hlogin. unfold login.
  destruct (interpret (server [] (login_request p))) as [response|e];
    [|by destruct e].
  unfold bind, jindex.
  destruct response as [| | | | |fields]; try done.
  destruct (jget "tokens" (JObj fields)) as [tokens|] eqn:Htokens; [|done].
  destruct tokens as [| | | | |fields']; try done.
  destruct (jget "accessToken" (JObj fields')) as [token|] eqn:Htoken; [|done].
  intros [= <-].
  exists (JObj fields), (JObj fields'), token. repeat split; try done.
  apply create_all_authorization.
  - intros k method endpoint data params. right.
    unfold request_of, authorization_of. by cbn.
  - apply Forall_singleton. by left.
Qed.

End ServerFacts.

Lemma bot_creation_is_attempted_once_witness :
  (Some "community_0",
   create_bots_request logged_in (JNum 2) (JStr "c1") JNull)
    ∈ requests (init_forum failing_bots admin one_community no_state)
  /\ exists s,
       saved (init_forum failing_bots admin one_community no_state) = Some s
       /\ is_Some (st_communities s !! "community_0")
       /\ forall server2 p2 config2 s2,
            st_communities s2 = st_communities s ->
            Forall (fun kr => kr.1 <> Some "community_0")
                   (requests (init_forum server2 p2 config2 s2)).
Proof.
  assert (H : (Some "community_0",
               create_bots_request logged_in (JNum 2) (JStr "c1") JNull)
                ∈ requests (init_forum failing_bots admin one_community
                                       no_state)).
  { apply list_elem_of_In. vm_compute. right. right. left. reflexivity. }
  split; [exact H|].
  exact (bot_creation_is_attempted_once failing_bots admin one_community
           no_state "community_0" logged_in (JNum 2) (JStr "c1") JNull H).
Defined.

Lemma setup_completes_the_config_witness :
  outcome (init_forum healthy admin one_community no_state) = None
  /\ (forall i c, one_community !! i = Some c -> inactive c = false ->
        is_Some (st_communities
                   (file_after no_state
                      (init_forum healthy admin one_community no_state))
                   !! comm_key i))
  /\ (forall k v, st_communities no_state !! k = Some v ->
        st_communities
          (file_after no_state
             (init_forum healthy admin one_community no_state)) !! k
        = Some v).
Proof.
  assert (H : outcome (init_forum healthy admin one_community no_state) = None)
    by (vm_compute; reflexivity).
  split; [exact H|].
  exact (setup_completes_the_config healthy admin one_community no_state H).
Defined.

Lemma setup_stores_no_empty_token_witness :
  tokens_of (file_after no_state
               (init_forum healthy admin one_community no_state))
    !! KStr "b1" = Some (JStr "alice-token")
  /\ (tokens_of no_state !! KStr "b1" = Some (JStr "alice-token")
      \/ jtruthy (JStr "alice-token") = true).
Proof.
  assert (H : tokens_of (file_after no_state
                           (init_forum healthy admin one_community no_state))
                !! KStr "b1" = Some (JStr "alice-token"))
    by (vm_compute; reflexivity).
  split; [exact H|].
  exact (setup_stores_no_empty_token healthy admin one_community no_state
           (KStr "b1") (JStr "alice-token") H).
Defined.

Lemma setup_requests_carry_the_login_token_witness :
  login (healthy []) admin = Return logged_in
  /\ exists response tokens token,
       interpret (healthy [] (login_request admin)) = Return response
       /\ jget "tokens" response = Some tokens
       /\ jget "accessToken" tokens = Some token
       /\ admin_token logged_in = Some token
       /\ Forall (fun kr => kr.1 = None
                            \/ authorization kr.2
                               = (if jtruthy token then Some token else None))
                 (requests (init_forum healthy admin one_community no_state)).
Proof.
  assert (H : login (healthy []) admin = Return logged_in)
    by (vm_compute; reflexivity).
  split; [exact H|].
  exact (setup_requests_carry_the_login_token healthy admin logged_in
           one_community no_state H).
Defined.

End SetupFacts.
